(** * Vertical layout of a bridge (waterfall) chart

    A shallow embedding of [src/ponte/bridge.py]: the class [Bridge], its
    constructor, [add_layer], [_plot] and [_calc_bottom], followed by the
    properties of the layout that the specification lists.

    The chart keeps its layers in a Python list and draws them with one
    [ax.bar] call per layer.  The matplotlib axes are modelled by what the
    code does to them: the tick positions and labels it sets and the
    sequence of [bar] calls issued since the last [clear].  The [bottom]
    argument of the k-th call is the bottom vector of the k-th layer. *)

From Stdlib Require Floats.PrimFloat Floats.SpecFloat Floats.FloatOps.
From Stdlib Require Floats.FloatAxioms.
From stdpp Require Import base list strings.

(** ** Numbers

    Layer values are numpy float arrays ([np.array(values).astype(float)]);
    the only operations the code applies to their entries are [x + y], the
    literal [0] and [np.nan_to_num].  The model is written against that
    interface; the arrays themselves are IEEE binary64, the instance
    below.  What is proved for every [Number] uses no law of arithmetic;
    what needs one is proved for binary64. *)

Class Number (num : Type) := {
  zero : num;                   (* the literal 0 *)
  add : num → num → num;        (* x + y *)
  isnan : num → bool;           (* np.isnan, the gap sentinel *)
  nan_to_num : num → num        (* np.nan_to_num on one entry *)
}.

(** IEEE binary64, the dtype of the arrays. *)
Module Binary64.
Import PrimFloat.

Definition max_float : float := 0x1.fffffffffffffp+1023%float.

(* numpy's defaults: nan -> 0.0, +inf -> largest finite, -inf -> most
   negative finite *)
Definition f_nan_to_num (x : float) : float :=
  if PrimFloat.is_nan x then 0%float
  else if PrimFloat.is_infinity x then
    (if PrimFloat.ltb x 0%float then PrimFloat.opp max_float else max_float)
  else x.

#[global] Instance float_number : Number float := {
  zero := 0%float;
  add := PrimFloat.add;
  isnan := PrimFloat.is_nan;
  nan_to_num := f_nan_to_num
}.

(* 0.0 or -0.0 *)
Definition signed_zero (x : float) : Prop := x = 0%float ∨ x = (-0)%float.

(* equal as numbers: one and the same float, or two zeros of either sign
   (what == says of two floats that are not NaN) *)
Definition same_number (x y : float) : Prop :=
  x = y ∨ (signed_zero x ∧ signed_zero y).

(* neither NaN nor infinite: what np.nan_to_num leaves as it is *)
Definition finite (x : float) : bool :=
  negb (PrimFloat.is_nan x) && negb (PrimFloat.is_infinity x).
End Binary64.

(** ** Exceptions *)

(* The code raises Python's ValueError; the specification calls both of
   its uses ConfigurationError. *)
Inductive exn : Type :=
| ValueError (msg : string).

(* How a call that mutates [self] ends. *)
Inductive outcome : Type :=
| Returned
| Raised (e : exn).

(** ** The chart *)

Section Bridge.

Context {num : Type} `{Number num}.
(* keyword arguments handed through to [ax.bar], never inspected *)
Context {kwargs : Type}.

(* SimpleNamespace(values=..., bar_args=...) *)
Record Layer : Type := mkLayer {
  values : list num;
  bar_args : kwargs
}.

(* one call ax.bar(x, height, bottom=bottom, **kwargs) *)
Record BarCall : Type := mkBarCall {
  bar_x : list nat;
  bar_height : list num;
  bar_bottom : list num;
  bar_kwargs : kwargs
}.

Record Axes : Type := mkAxes {
  xticks : list nat;
  xticklabels : list string;
  bars : list BarCall
}.

Record Bridge : Type := mkBridge {
  layers : list Layer;
  segment_labels : list string;
  segment_count : nat;
  total_segments : list bool;
  ax : Axes
}.

(* plt.subplots() hands out empty axes; ax.clear() returns to them *)
Definition new_axes : Axes :=
  {| xticks := []; xticklabels := []; bars := [] |}.

Definition ax_clear (a : Axes) : Axes := new_axes.

Definition set_xticks (ticks : list nat) (a : Axes) : Axes :=
  {| xticks := ticks; xticklabels := xticklabels a; bars := bars a |}.

Definition set_xticklabels (labels : list string) (a : Axes) : Axes :=
  {| xticks := xticks a; xticklabels := labels; bars := bars a |}.

(* ax.bar when it draws the call; Raising below has the calls that raise *)
Definition ax_bar (x : list nat) (height bottom : list num) (kw : kwargs)
    (a : Axes) : Axes :=
  {| xticks := xticks a; xticklabels := xticklabels a;
     bars := bars a ++ [mkBarCall x height bottom kw] |}.

Definition set_ax (a : Axes) (self : Bridge) : Bridge :=
  {| layers := layers self; segment_labels := segment_labels self;
     segment_count := segment_count self;
     total_segments := total_segments self; ax := a |}.

Definition set_layers (ls : list Layer) (self : Bridge) : Bridge :=
  {| layers := ls; segment_labels := segment_labels self;
     segment_count := segment_count self;
     total_segments := total_segments self; ax := ax self |}.

(** *** Python list helpers *)

(* truth value of the optional list argument: None and [] are false *)
Definition truthy {A} (o : option (list A)) : bool :=
  match o with
  | Some (_ :: _) => true
  | _ => false
  end.

(* l[:-1] *)
Definition drop_last {A} (l : list A) : list A := take (length l - 1) l.

(* zip(a, b, c), as long as the shortest argument *)
Definition zip3 {A B C} (a : list A) (b : list B) (c : list C)
    : list (A * B * C) :=
  zip (zip a b) c.

(** *** [Bridge.__init__] *)

Definition __init__ (segment_labels : list string)
    (total_segments : option (list bool)) : exn + Bridge :=
  let layers := [] in
  let segment_count := length segment_labels in
  if truthy total_segments
     && negb (length segment_labels =? length (default [] total_segments))%nat
  then inl (ValueError
    "total_segments must be the same size as the series_labels."%string)
  else
    let total_segments :=
      if truthy total_segments then default [] total_segments
      else replicate segment_count false in
    let ax := new_axes in
    let ax := set_xticks (seq 0 (length segment_labels)) ax in
    let ax := set_xticklabels segment_labels ax in
    inr {| layers := layers; segment_labels := segment_labels;
           segment_count := segment_count;
           total_segments := total_segments; ax := ax |}.

(** *** [Bridge._calc_bottom] *)

(* np.insert(np.nan_to_num(segment_values), 0, 0)[:-1] *)
Definition shift_right (segment_values : list num) : list num :=
  let segment_values := nan_to_num <$> segment_values in
  drop_last (zero :: segment_values).

(* bottom_step1 = [x + y for x, y in zip(segment_tops, segment_values)] *)
Definition bottom_step1 (segment_values segment_tops : list num) : list num :=
  zip_with add segment_tops (shift_right segment_values).

(* one turn of the loop; the state is (bottom_step2, cumulative_b) *)
Definition calc_step (state : list num * num) (item : bool * num * num)
    : list num * num :=
  let '(bottom_step2, cumulative_b) := state in
  let '(total_segment, b, st) := item in
  if total_segment then
    (bottom_step2 ++ [st], st)
  else
    let cumulative_b := add cumulative_b b in
    (bottom_step2 ++ [cumulative_b], cumulative_b).

Definition calc_loop (total_segments : list bool)
    (bottom_step1 segment_tops : list num) : list num * num :=
  foldl calc_step ([], zero) (zip3 total_segments bottom_step1 segment_tops).

Definition _calc_bottom (self : Bridge) (segment_values segment_tops : list num)
    : list num :=
  let bottom_step1 := bottom_step1 segment_values segment_tops in
  let '(bottom_step2, _) :=
    calc_loop (total_segments self) bottom_step1 segment_tops in
  bottom_step2.

(** *** [Bridge._plot] *)

(* segment_tops = [x + y for x, y in zip(segment_tops, np.nan_to_num(values))] *)
Definition update_tops (segment_tops values : list num) : list num :=
  zip_with add segment_tops (nan_to_num <$> values).

(* for layer in self.layers: ...; the state is (ax, segment_tops) *)
Fixpoint plot_layers (self : Bridge) (ax : Axes) (segment_tops : list num)
    (ls : list Layer) : Axes * list num :=
  match ls with
  | [] => (ax, segment_tops)
  | layer :: ls =>
      let values := values layer in
      let bottom := _calc_bottom self values segment_tops in
      let ax :=
        ax_bar (seq 0 (segment_count self)) values bottom (bar_args layer) ax in
      let segment_tops := update_tops segment_tops values in
      plot_layers self ax segment_tops ls
  end.

Definition _plot (self : Bridge) : Bridge :=
  let ax := ax_clear (ax self) in
  let ax := set_xticks (seq 0 (length (segment_labels self))) ax in
  let ax := set_xticklabels (segment_labels self) ax in
  let segment_tops := replicate (segment_count self) zero in
  let '(ax, _) := plot_layers self ax segment_tops (layers self) in
  set_ax ax self.

(** *** [Bridge.add_layer] *)

(* The result is the chart after the call and how the call ended. *)
Definition add_layer (values : list num) (add_to_bottom : bool)
    (bar_args : kwargs) (self : Bridge) : Bridge * outcome :=
  if negb (segment_count self =? length values)%nat then
    (self, Raised (ValueError
      "values must be the same size as the series_labels used to initialize the bridge."%string))
  else
    (* np.array(values).astype(float): the entries are floats already *)
    let layer := {| values := values; bar_args := bar_args |} in
    let self :=
      if add_to_bottom then set_layers (layer :: layers self) self
      else set_layers (layers self ++ [layer]) self in
    (_plot self, Returned).

End Bridge.

Arguments Layer : clear implicits.
Arguments BarCall : clear implicits.
Arguments Axes : clear implicits.
Arguments Bridge : clear implicits.

(** ** Vocabulary of the properties *)

Section Vocabulary.

Context {num : Type} `{Number num} {kwargs : Type}.

(* The shape invariant kept by the constructor and by add_layer. *)
Definition well_formed (self : Bridge num kwargs) : Prop :=
  segment_count self = length (segment_labels self)
  ∧ length (total_segments self) = segment_count self
  ∧ Forall (λ l, length (values l) = segment_count self) (layers self).

(* segment_tops on entry to turn k of the loop of _plot *)
Definition segment_tops_at (self : Bridge num kwargs) (k : nat) : list num :=
  (plot_layers self new_axes (replicate (segment_count self) zero)
     (take k (layers self))).2.

(* cumulative_b after the turn for category i of the loop of _calc_bottom *)
Definition cumulative_b_after (self : Bridge num kwargs)
    (segment_values segment_tops : list num) (i : nat) : num :=
  (foldl calc_step ([], zero)
     (take (S i) (zip3 (total_segments self)
                    (bottom_step1 segment_values segment_tops)
                    segment_tops))).2.

(* the bottom vector the k-th layer was drawn with *)
Definition bottom_of (self : Bridge num kwargs) (k : nat) : option (list num) :=
  bar_bottom <$> bars (ax self) !! k.

(* the raw values at position i of the given layers, bottom first *)
Definition column (i : nat) (ls : list (Layer num kwargs))
    : list (option num) :=
  (λ l, values l !! i) <$> ls.

(* the cleaned values at position i of the given layers, bottom first *)
Definition clean_column (i : nat) (ls : list (Layer num kwargs)) : list num :=
  omap (λ l, nan_to_num <$> values l !! i) ls.

(* their sum, added up from 0 in stacking order *)
Definition column_sum (i : nat) (ls : list (Layer num kwargs)) : num :=
  foldl add zero (clean_column i ls).

(* v[0] + ... + v[i-1], added up from 0 *)
Definition prefix_sum (v : list num) (i : nat) : num :=
  foldl add zero (take i v).

(* The running sum of a cleaned layer, restarted at every total: what a
   layer put underneath adds to the bottoms of the layers above it. *)
Fixpoint contribution_from (cum : num) (mask : list bool) (w : list num)
    : list num :=
  match mask, w with
  | t :: mask, x :: w =>
      let cum := if t then x else add cum x in
      cum :: contribution_from cum mask w
  | _, _ => []
  end.

Definition contribution (mask : list bool) (values : list num) : list num :=
  contribution_from zero mask (nan_to_num <$> values).

(* the chart Bridge(labels, mask) builds, when it builds one *)
Definition built (labels : list string) (mask : list bool)
    : Bridge num kwargs :=
  {| layers := []; segment_labels := labels;
     segment_count := length labels; total_segments := mask;
     ax := {| xticks := seq 0 (length labels); xticklabels := labels;
              bars := [] |} |}.

(* the same chart built with another mask *)
Definition with_total_segments (mask : list bool) (self : Bridge num kwargs)
    : Bridge num kwargs :=
  {| layers := layers self; segment_labels := segment_labels self;
     segment_count := segment_count self;
     total_segments := mask; ax := ax self |}.

(** The two loops as recursive functions, for the proofs. *)

(* cumulative_b after one turn of the loop of _calc_bottom *)
Definition next_cum (cum : num) (item : bool * num * num) : num :=
  let '(total_segment, b, st) := item in
  if total_segment then st else add cum b.

(* cumulative_b after each turn, in turn *)
Fixpoint cums (cum : num) (items : list (bool * num * num)) : list num :=
  match items with
  | [] => []
  | item :: items => next_cum cum item :: cums (next_cum cum item) items
  end.

(* segment_tops after the turns of the loop of _plot for the layers ls *)
Definition tops_after (tops : list num) (ls : list (Layer num kwargs))
    : list num :=
  foldl (λ t l, update_tops t (values l)) tops ls.

(* the bar calls of those turns *)
Fixpoint calls (self : Bridge num kwargs) (tops : list num)
    (ls : list (Layer num kwargs)) : list (BarCall num kwargs) :=
  match ls with
  | [] => []
  | l :: ls =>
      mkBarCall (seq 0 (segment_count self)) (values l)
        (_calc_bottom self (values l) tops) (bar_args l)
      :: calls self (update_tops tops (values l)) ls
  end.

End Vocabulary.

(** ** Runs of calls *)

Section Calls.

Context {num : Type} `{Number num} {kwargs : Type}.

(* the arguments of one call b.add_layer(values, add_to_bottom, bar_args) *)
Record Call : Type := mkCall {
  call_values : list num;
  call_to_bottom : bool;
  call_args : kwargs
}.

(* the layer such a call stores *)
Definition layer_of (c : Call) : Layer num kwargs :=
  mkLayer (call_values c) (call_args c).

(* the calls made one after the other on the same chart *)
Definition add_layers (cs : list Call) (self : Bridge num kwargs)
    : Bridge num kwargs :=
  foldl (λ b c,
           (add_layer (call_values c) (call_to_bottom c) (call_args c) b).1)
    self cs.

(* the charts a program can hold: built by the constructor, then changed
   by add_layer only (a call that raises leaves the chart as it was) *)
Inductive reachable : Bridge num kwargs → Prop :=
| reach_init labels mask b :
    __init__ labels mask = inr b → reachable b
| reach_add_layer v atb kw b :
    reachable b → reachable (add_layer v atb kw b).1.

(* what _calc_bottom reads of a layer: its values after np.nan_to_num *)
Definition cleaned (l : Layer num kwargs) : list num :=
  nan_to_num <$> values l.

End Calls.

Arguments Call : clear implicits.

(** ** The calls when ax.bar raises

    Above, every call of ax.bar draws its bars.  At that call Python
    itself raises TypeError when bar_args repeats the keyword bottom, and
    matplotlib raises on arguments it rejects; add_layer has put the
    layer into the list by then.  Here ax.bar is a parameter: what it
    answers to a call on the axes as they are, the rest of the methods
    being as above. *)

Module Raising.
Section Raising.

Context {num : Type} `{Number num} {kwargs : Type}.
(* the exceptions ax.bar raises *)
Context {bar_error : Type}.
(* None when ax.bar draws the call, the exception when it raises *)
Variable bar_raises : Axes num kwargs → BarCall num kwargs → option bar_error.

(* How a call of add_layer ends. *)
Inductive ending : Type :=
| Returns
| RaisesValueError (msg : string)
| RaisesInBar (e : bar_error).

(* for layer in self.layers: ..., left at the first ax.bar that raises *)
Fixpoint plot_layers (self : Bridge num kwargs) (ax : Axes num kwargs)
    (segment_tops : list num) (ls : list (Layer num kwargs))
    : Axes num kwargs * option bar_error :=
  match ls with
  | [] => (ax, None)
  | layer :: ls =>
      let values := values layer in
      let bottom := _calc_bottom self values segment_tops in
      match bar_raises ax
              (mkBarCall (seq 0 (segment_count self)) values bottom
                 (bar_args layer)) with
      | Some e => (ax, Some e)
      | None =>
          let ax :=
            ax_bar (seq 0 (segment_count self)) values bottom (bar_args layer)
              ax in
          let segment_tops := update_tops segment_tops values in
          plot_layers self ax segment_tops ls
      end
  end.

(* The result is the chart after the call and the exception, if any. *)
Definition _plot (self : Bridge num kwargs)
    : Bridge num kwargs * option bar_error :=
  let ax := ax_clear (ax self) in
  let ax := set_xticks (seq 0 (length (segment_labels self))) ax in
  let ax := set_xticklabels (segment_labels self) ax in
  let segment_tops := replicate (segment_count self) zero in
  let '(ax, raised) := plot_layers self ax segment_tops (layers self) in
  (set_ax ax self, raised).

Definition add_layer (values : list num) (add_to_bottom : bool)
    (bar_args : kwargs) (self : Bridge num kwargs)
    : Bridge num kwargs * ending :=
  if negb (segment_count self =? length values)%nat then
    (self, RaisesValueError
      "values must be the same size as the series_labels used to initialize the bridge."%string)
  else
    let layer := {| values := values; bar_args := bar_args |} in
    let self :=
      if add_to_bottom then set_layers (layer :: layers self) self
      else set_layers (layers self ++ [layer]) self in
    let '(self, raised) := _plot self in
    (self, match raised with
           | None => Returns
           | Some e => RaisesInBar e
           end).

(* the charts a program can hold, whatever its calls of add_layer did *)
Inductive reachable : Bridge num kwargs → Prop :=
| reach_init labels mask b :
    __init__ labels mask = inr b → reachable b
| reach_add_layer v atb kw b :
    reachable b → reachable (add_layer v atb kw b).1.

End Raising.
End Raising.

(** ** Sample charts *)

(* matplotlib keyword arguments, by name *)
Definition style : Type := list (string * string).

(** On binary64 values. *)
Module FloatChart.
Import PrimFloat Binary64.

Definition chart : Type := Bridge float style.

(* Bridge(["A", "B", "C"], [False, False, True]) *)
Definition abc : chart := built ["A"; "B"; "C"]%string [false; false; true].

(* Bridge(["A", "B", "C"]) *)
Definition plain : chart := built ["A"; "B"; "C"]%string [false; false; false].

(* Bridge(["A"]) *)
Definition single : chart := built ["A"]%string [false].

(* b.add_layer(v1); b.add_layer(v2, add_to_bottom=atb) on a chart b *)
Definition two_layers (v1 v2 : list float) (atb : bool) (b : chart) : chart :=
  let b := (add_layer v1 true [] b).1 in
  (add_layer v2 atb [] b).1.

End FloatChart.

(** Runs of calls on binary64 values. *)
Module FloatRuns.
Import PrimFloat Binary64 FloatChart.

(* abc.add_layer([5, 5, 5]); abc.add_layer([1, 1, 1], add_to_bottom=False) *)
Definition stacked : chart :=
  two_layers [5; 5; 5]%float [1; 1; 1]%float false abc.

(* add_layer([1, 1, 1]); add_layer([2, 2, 2], add_to_bottom=False);
   add_layer([3, 3, 3]) *)
Definition three_calls : list (Call float style) :=
  [mkCall [1; 1; 1]%float true []; mkCall [2; 2; 2]%float false [];
   mkCall [3; 3; 3]%float true []].

(* abc.add_layer([5, nan, 5]); abc.add_layer([1, nan, 1], add_to_bottom=False) *)
Definition with_gaps : chart :=
  two_layers [5; nan; 5]%float [1; nan; 1]%float false abc.

(* the same with 0 in place of nan *)
Definition with_zeros : chart :=
  two_layers [5; 0; 5]%float [1; 0; 1]%float false abc.

(* Bridge(["A", "B"]) *)
Definition ab : chart := built ["A"; "B"]%string [false; false].

(* the floats that 0.1, 0.2 and 0.3 denote *)
Definition tenth : float := 0x1.999999999999ap-4%float.
Definition two_tenths : float := 0x1.999999999999ap-3%float.
Definition three_tenths : float := 0x1.3333333333333p-2%float.

(* what Python raises at ax.bar(x, values, bottom=bottom, **bar_args) *)
Inductive py_error : Type :=
| TypeError (msg : string).

(* an ax.bar that raises on a repeated keyword bottom and draws every
   other call *)
Definition python_bar (a : Axes float style) (c : BarCall float style)
    : option py_error :=
  if existsb (λ kv, String.eqb kv.1 "bottom") (bar_kwargs c) then
    Some (TypeError
      "bar() got multiple values for keyword argument 'bottom'"%string)
  else None.

(* single.add_layer([1], bar_args={'bottom': ...}) *)
Definition rejected : chart :=
  (Raising.add_layer python_bar [1]%float true
     [("bottom", "0")%string] single).1.

End FloatRuns.

(** ** The loop of [_calc_bottom] *)

Section CalcBottom.

Context {num : Type} `{Number num} {kwargs : Type}.
Implicit Types (self : Bridge num kwargs) (cum : num).
Implicit Types (items : list (bool * num * num)).

(* Every turn appends the new cumulative_b. *)
Lemma calc_step_next acc cum item :
  calc_step (acc, cum) item = (acc ++ [next_cum cum item], next_cum cum item).
Proof. destruct item as [[[] b] st]; reflexivity. Qed.

Lemma foldl_calc_step acc cum items :
  foldl calc_step (acc, cum) items = (acc ++ cums cum items, foldl next_cum cum items).
Proof.
  revert acc cum. induction items as [|item items IH]; intros acc cum.
  - simpl. by rewrite app_nil_r.
  - cbn [foldl cums]. rewrite calc_step_next, IH, <- app_assoc. reflexivity.
Qed.

Lemma length_cums cum items : length (cums cum items) = length items.
Proof. revert cum. induction items; intros; simpl; auto. Qed.

Lemma lookup_cums cum items i :
  i < length items →
  cums cum items !! i = Some (foldl next_cum cum (take (S i) items)).
Proof.
  revert cum i. induction items as [|item items IH]; intros cum i Hi; simpl in *.
  - lia.
  - destruct i as [|i]; [by rewrite take_0|].
    rewrite lookup_cons_ne_0 by done. simpl. apply IH. lia.
Qed.

Lemma calc_bottom_cums self segment_values segment_tops :
  _calc_bottom self segment_values segment_tops
  = cums zero (zip3 (total_segments self)
                 (bottom_step1 segment_values segment_tops) segment_tops).
Proof.
  unfold _calc_bottom, calc_loop. by rewrite foldl_calc_step.
Qed.

Lemma cumulative_b_after_cum self segment_values segment_tops i :
  cumulative_b_after self segment_values segment_tops i
  = foldl next_cum zero
      (take (S i) (zip3 (total_segments self)
                     (bottom_step1 segment_values segment_tops) segment_tops)).
Proof. unfold cumulative_b_after. by rewrite foldl_calc_step. Qed.

Lemma length_shift_right (v : list num) : length (shift_right v) = length v.
Proof.
  unfold shift_right, drop_last. simpl.
  rewrite length_take, Nat.sub_0_r. simpl. rewrite length_fmap. lia.
Qed.

Lemma lookup_shift_right_0 (v : list num) :
  0 < length v → shift_right v !! 0 = Some zero.
Proof.
  intros Hv. unfold shift_right, drop_last. simpl.
  rewrite Nat.sub_0_r, length_fmap. destruct v; simpl in *; [lia|done].
Qed.

Lemma lookup_shift_right_S (v : list num) i :
  S i < length v → shift_right v !! S i = nan_to_num <$> v !! i.
Proof.
  intros Hv. unfold shift_right, drop_last. simpl.
  rewrite Nat.sub_0_r, length_fmap.
  rewrite lookup_take_lt by done. simpl. apply list_lookup_fmap.
Qed.

Lemma length_bottom_step1 (v tops : list num) :
  length v = length tops → length (bottom_step1 v tops) = length tops.
Proof.
  intros Hv. unfold bottom_step1.
  rewrite length_zip_with, length_shift_right. lia.
Qed.

Lemma length_zip3 {A B C} (a : list A) (b : list B) (c : list C) :
  length (zip3 a b c) = (length a `min` length b) `min` length c.
Proof. unfold zip3. by rewrite !length_zip_with. Qed.

Lemma lookup_zip3 {A B C} (a : list A) (b : list B) (c : list C) i x y z :
  a !! i = Some x → b !! i = Some y → c !! i = Some z →
  zip3 a b c !! i = Some (x, y, z).
Proof.
  intros Ha Hb Hc. unfold zip3.
  rewrite !lookup_zip_with, Ha, Hb, Hc. reflexivity.
Qed.

(* The bottom vector is as long as the shortest of the three sequences
   the loop zips. *)
Lemma length_calc_bottom self v tops :
  length (_calc_bottom self v tops)
  = (length (total_segments self) `min` length (bottom_step1 v tops))
      `min` length tops.
Proof. by rewrite calc_bottom_cums, length_cums, length_zip3. Qed.

Lemma length_calc_bottom_shaped self v tops :
  length (total_segments self) = length tops → length v = length tops →
  length (_calc_bottom self v tops) = length tops.
Proof.
  intros Hm Hv. rewrite length_calc_bottom, length_bottom_step1, Hm by done. lia.
Qed.

(* The entry for category i is cumulative_b after turn i. *)
Lemma lookup_calc_bottom self v tops i :
  i < length (_calc_bottom self v tops) →
  _calc_bottom self v tops !! i = Some (cumulative_b_after self v tops i).
Proof.
  intros Hi. rewrite cumulative_b_after_cum.
  rewrite calc_bottom_cums in *. rewrite length_cums in Hi.
  by apply lookup_cums.
Qed.

Lemma cumulative_b_after_item self v tops i (t : bool) (b st : num) :
  zip3 (total_segments self) (bottom_step1 v tops) tops !! i = Some (t, b, st) →
  cumulative_b_after self v tops i
  = if t then st
    else add (match i with
              | 0 => zero
              | S j => cumulative_b_after self v tops j
              end) b.
Proof.
  intros Hi. rewrite cumulative_b_after_cum.
  rewrite (take_S_r _ _ _ Hi), foldl_snoc. simpl.
  destruct t; [done|]. f_equal.
  destruct i as [|j]; [by rewrite take_0|].
  by rewrite cumulative_b_after_cum.
Qed.

End CalcBottom.

(** ** The loop of [_plot] *)

Section Plot.

Context {num : Type} `{Number num} {kwargs : Type}.
Implicit Types (self : Bridge num kwargs) (ls : list (Layer num kwargs)).
Implicit Types (tops : list num).

Lemma plot_layers_eq self a tops ls :
  plot_layers self a tops ls
  = ({| xticks := xticks a; xticklabels := xticklabels a;
        bars := bars a ++ calls self tops ls |}, tops_after tops ls).
Proof.
  revert a tops. induction ls as [|l ls IH]; intros a tops.
  - simpl. rewrite app_nil_r. by destruct a.
  - cbn [plot_layers calls]. rewrite IH. simpl.
    by rewrite <- app_assoc.
Qed.

Lemma plot_eq self :
  _plot self
  = set_ax {| xticks := seq 0 (length (segment_labels self));
              xticklabels := segment_labels self;
              bars := calls self (replicate (segment_count self) zero)
                        (layers self) |} self.
Proof. unfold _plot. by rewrite plot_layers_eq. Qed.

Lemma segment_tops_at_eq self k :
  segment_tops_at self k
  = tops_after (replicate (segment_count self) zero) (take k (layers self)).
Proof. unfold segment_tops_at. by rewrite plot_layers_eq. Qed.

Lemma length_calls self tops ls : length (calls self tops ls) = length ls.
Proof. revert tops. induction ls; intros; simpl; auto. Qed.

Lemma lookup_calls self tops ls k l :
  ls !! k = Some l →
  calls self tops ls !! k
  = Some (mkBarCall (seq 0 (segment_count self)) (values l)
            (_calc_bottom self (values l) (tops_after tops (take k ls)))
            (bar_args l)).
Proof.
  revert tops k. induction ls as [|l0 ls IH]; intros tops k Hk; [done|].
  destruct k as [|k]; simpl in *.
  - by simplify_eq.
  - by apply IH.
Qed.

(* The bars drawn by _plot, one per layer, bottom layer first. *)
Lemma lookup_bars_plot self k l :
  layers self !! k = Some l →
  bars (ax (_plot self)) !! k
  = Some (mkBarCall (seq 0 (segment_count self)) (values l)
            (_calc_bottom self (values l) (segment_tops_at self k))
            (bar_args l)).
Proof.
  intros Hk. rewrite plot_eq, segment_tops_at_eq. simpl.
  by apply lookup_calls.
Qed.

Lemma length_bars_plot self :
  length (bars (ax (_plot self))) = length (layers self).
Proof. rewrite plot_eq. simpl. apply length_calls. Qed.

Lemma layers_plot self : layers (_plot self) = layers self.
Proof. by rewrite plot_eq. Qed.

Lemma lookup_update_tops tops (v : list num) i :
  update_tops tops v !! i
  = (t ← tops !! i; x ← v !! i; Some (add t (nan_to_num x))).
Proof.
  unfold update_tops. rewrite lookup_zip_with, list_lookup_fmap.
  destruct (tops !! i); simpl; [|done]. by destruct (v !! i).
Qed.

Lemma length_update_tops tops (v : list num) :
  length v = length tops → length (update_tops tops v) = length tops.
Proof.
  intros Hv. unfold update_tops. rewrite length_zip_with, length_fmap. lia.
Qed.

Lemma length_tops_after tops ls :
  Forall (λ l, length (values l) = length tops) ls →
  length (tops_after tops ls) = length tops.
Proof.
  revert tops. induction ls as [|l ls IH]; intros tops Hls; [done|].
  inversion Hls as [|?? Hl Hls']; subst. simpl.
  change (length (tops_after (update_tops tops (values l)) ls) = length tops).
  rewrite IH; rewrite length_update_tops by done; [done|].
  eapply Forall_impl; [exact Hls'|]. simpl. congruence.
Qed.

(* Position i of segment_tops is the start value plus the cleaned
   entries of the layers at that position, added in stacking order. *)
Lemma lookup_tops_after tops ls i (t : num) :
  tops !! i = Some t →
  Forall (λ l, i < length (values l)) ls →
  tops_after tops ls !! i = Some (foldl add t (clean_column i ls)).
Proof.
  revert tops t. induction ls as [|l ls IH]; intros tops t Ht Hls; [done|].
  inversion Hls as [|?? Hl Hls']; subst.
  destruct (lookup_lt_is_Some_2 _ _ Hl) as [x Hx].
  unfold clean_column. simpl. rewrite Hx. simpl.
  change (tops_after (update_tops tops (values l)) ls !! i
          = Some (foldl add (add t (nan_to_num x)) (clean_column i ls))).
  apply IH; [|done]. by rewrite lookup_update_tops, Ht, Hx.
Qed.

Lemma Forall_take_shape self k :
  well_formed self →
  Forall (λ l, length (values l) = segment_count self) (take k (layers self)).
Proof. intros (_ & _ & Hls). by apply Forall_take. Qed.

Lemma length_segment_tops_at self k :
  well_formed self → length (segment_tops_at self k) = segment_count self.
Proof.
  intros Hwf. rewrite segment_tops_at_eq, length_tops_after;
    rewrite length_replicate; [done|]. by apply Forall_take_shape.
Qed.

Lemma lookup_segment_tops_at self k i :
  well_formed self → i < segment_count self →
  segment_tops_at self k !! i = Some (column_sum i (take k (layers self))).
Proof.
  intros Hwf Hi. rewrite segment_tops_at_eq. unfold column_sum.
  apply lookup_tops_after; [by apply lookup_replicate_2|].
  eapply Forall_impl; [by apply Forall_take_shape|]. simpl. lia.
Qed.

(** *** The shape invariant *)

Lemma init_well_formed labels mask self :
  __init__ labels mask = inr self → well_formed self.
Proof.
  unfold __init__, well_formed.
  destruct mask as [[|t mask]|]; simpl; intros Heq.
  - simplify_eq. simpl. by rewrite length_replicate.
  - destruct (length labels =? S (length mask))%nat eqn:Hlen; simpl in Heq;
      [|done]. apply Nat.eqb_eq in Hlen. simplify_eq. simpl. done.
  - simplify_eq. simpl. by rewrite length_replicate.
Qed.

Lemma init_built labels mask self :
  __init__ labels mask = inr self → self = built labels (total_segments self).
Proof.
  unfold __init__. destruct (truthy mask && _); [done|].
  intros Hinit. by simplify_eq.
Qed.

Lemma plot_well_formed self : well_formed self → well_formed (_plot self).
Proof. rewrite plot_eq. by unfold well_formed. Qed.

Lemma add_layer_well_formed v atb kw self :
  well_formed self → well_formed (add_layer v atb kw self).1.
Proof.
  intros Hwf. unfold add_layer.
  destruct (segment_count self =? length v)%nat eqn:Hlen; simpl; [|done].
  apply Nat.eqb_eq in Hlen. apply plot_well_formed.
  destruct Hwf as (Hc & Hm & Hls).
  destruct atb; (split; [done|split; [done|]]); simpl.
  - by constructor.
  - apply Forall_app. split; [done|]. by constructor.
Qed.

End Plot.


(** ** Properties that hold for every arithmetic *)

Section Properties.

Context {num : Type} `{Number num} {kwargs : Type}.
Implicit Types (self : Bridge num kwargs) (l : Layer num kwargs).
Implicit Types (v tops : list num).

(* What turn i of the loop of _calc_bottom reads, on inputs of one length. *)
Lemma lookup_items self v tops i (t : bool) (st : num) :
  length (total_segments self) = length tops → length v = length tops →
  total_segments self !! i = Some t → tops !! i = Some st →
  ∃ sh, shift_right v !! i = Some sh
        ∧ zip3 (total_segments self) (bottom_step1 v tops) tops !! i
          = Some (t, add st sh, st).
Proof.
  intros Hm Hv Ht Hst.
  assert (i < length tops) as Hi by (by eapply lookup_lt_Some).
  destruct (lookup_lt_is_Some_2 (shift_right v) i) as [sh Hsh];
    [rewrite length_shift_right; lia|].
  exists sh. split; [done|]. apply lookup_zip3; [done| |done].
  unfold bottom_step1. by rewrite lookup_zip_with, Hst, Hsh.
Qed.

(* The bottom vector of layer k, drawn by _plot. *)
Lemma bottom_of_plot self k l :
  layers self !! k = Some l →
  bottom_of (_plot self) k
  = Some (_calc_bottom self (values l) (segment_tops_at self k)).
Proof.
  intros Hk. unfold bottom_of. by rewrite (lookup_bars_plot _ _ _ Hk).
Qed.

Lemma layer_shape self k l :
  well_formed self → layers self !! k = Some l →
  length (values l) = segment_count self.
Proof.
  intros (_ & _ & Hls) Hk. by eapply (Forall_lookup_1 _ _ _ _ Hls).
Qed.

Lemma length_bottom self k l :
  well_formed self → layers self !! k = Some l →
  length (_calc_bottom self (values l) (segment_tops_at self k))
  = segment_count self.
Proof.
  intros Hwf Hk. pose proof (length_segment_tops_at self k Hwf) as Htops.
  rewrite length_calc_bottom_shaped; [done| |].
  - rewrite Htops. apply Hwf.
  - rewrite Htops. by eapply layer_shape.
Qed.

(* Entry i of the bottom vector of layer k is cumulative_b after turn i. *)
Lemma lookup_bottom self k l i :
  well_formed self → layers self !! k = Some l → i < segment_count self →
  bottom_of (_plot self) k ≫= (.!! i)
  = Some (cumulative_b_after self (values l) (segment_tops_at self k) i).
Proof.
  intros Hwf Hk Hi. rewrite (bottom_of_plot _ _ _ Hk). simpl.
  apply lookup_calc_bottom. by rewrite length_bottom.
Qed.

(* What turn i reads while layer k of a well-formed chart is drawn. *)
Lemma lookup_items_at self k l i (t : bool) :
  well_formed self → layers self !! k = Some l →
  total_segments self !! i = Some t →
  ∃ sh, shift_right (values l) !! i = Some sh
        ∧ zip3 (total_segments self)
            (bottom_step1 (values l) (segment_tops_at self k))
            (segment_tops_at self k) !! i
          = Some (t, add (column_sum i (take k (layers self))) sh,
                  column_sum i (take k (layers self))).
Proof.
  intros Hwf Hk Ht.
  assert (i < segment_count self) as Hi.
  { destruct Hwf as (_ & <- & _). by eapply lookup_lt_Some. }
  pose proof (length_segment_tops_at self k Hwf) as Htops.
  apply lookup_items; [| |done|by apply lookup_segment_tops_at].
  - rewrite Htops. apply Hwf.
  - rewrite Htops. by eapply layer_shape.
Qed.

Lemma clean_column_column i (ls : list (Layer num kwargs)) :
  clean_column i ls = omap (fmap nan_to_num) (column i ls).
Proof.
  unfold clean_column, column. induction ls as [|l ls IH]; [done|].
  rewrite fmap_cons. cbn [omap list_omap]. by rewrite <- IH.
Qed.

(** C2.  Total reset: in a well-formed chart, if category i is a total
    then entry i of the bottom vector of layer k is the cumulative top
    at i of the layers below it, namely the sum of their cleaned values
    at position i; the running accumulator cumulative_b is set to the
    same value by that turn; and the entry is the same in any other
    chart whose first k layers have the same values at position i,
    whatever the current layer holds and whatever stands at the other
    positions. *)
Theorem total_reset self k l i :
  well_formed self →
  layers self !! k = Some l →
  total_segments self !! i = Some true →
  bottom_of (_plot self) k ≫= (.!! i)
    = Some (column_sum i (take k (layers self)))
  ∧ segment_tops_at self k !! i = Some (column_sum i (take k (layers self)))
  ∧ cumulative_b_after self (values l) (segment_tops_at self k) i
    = column_sum i (take k (layers self))
  ∧ ∀ (self' : Bridge num kwargs) l',
      well_formed self' →
      layers self' !! k = Some l' →
      total_segments self' !! i = Some true →
      column i (take k (layers self')) = column i (take k (layers self)) →
      bottom_of (_plot self') k ≫= (.!! i)
      = bottom_of (_plot self) k ≫= (.!! i).
Proof.
  assert (∀ (s : Bridge num kwargs) m,
    well_formed s → layers s !! k = Some m →
    total_segments s !! i = Some true →
    cumulative_b_after s (values m) (segment_tops_at s k) i
      = column_sum i (take k (layers s))
    ∧ bottom_of (_plot s) k ≫= (.!! i)
      = Some (column_sum i (take k (layers s)))) as Hreset.
  { intros s m Hwf Hk Ht.
    destruct (lookup_items_at s k m i true Hwf Hk Ht) as (sh & _ & Hitem).
    pose proof (cumulative_b_after_item _ _ _ _ _ _ _ Hitem) as Hcum.
    simpl in Hcum. split; [done|].
    rewrite (lookup_bottom s k m i Hwf Hk), Hcum; [done|].
    destruct Hwf as (_ & <- & _). by eapply lookup_lt_Some. }
  intros Hwf Hk Ht.
  destruct (Hreset self l Hwf Hk Ht) as [Hcum Hbot].
  split; [done|]. split.
  { apply lookup_segment_tops_at; [done|].
    destruct Hwf as (_ & <- & _). by eapply lookup_lt_Some. }
  split; [done|].
  intros self' l' Hwf' Hk' Ht' Hcol.
  destruct (Hreset self' l' Hwf' Hk' Ht') as [_ Hbot'].
  rewrite Hbot, Hbot'. unfold column_sum.
  by rewrite !clean_column_column, Hcol.
Qed.

(** *** Degenerate shapes *)

Lemma cums_all_totals (cum : num) n (b1 tops : list num) :
  length b1 = n → length tops = n →
  cums cum (zip3 (replicate n true) b1 tops) = tops.
Proof.
  revert cum b1 tops. induction n as [|n IH]; intros cum b1 tops Hb Ht.
  - by destruct tops.
  - destruct b1 as [|b b1], tops as [|st tops]; simplify_eq/=.
    f_equal. by apply (IH st).
Qed.

(** C9.  _calc_bottom is a total function: on inputs of one length n it
    returns a bottom vector of length n for every mask, the empty vector
    when n = 0, and the tops themselves when every category is a total;
    every layer of a well-formed chart is drawn with a bottom vector of
    length segment_count; and a chart built with no labels accepts
    layers of length 0, drawn with the empty bottom vector. *)
Theorem calc_bottom_total_function :
  (∀ self v tops n,
     length (total_segments self) = n → length v = n → length tops = n →
     length (_calc_bottom self v tops) = n
     ∧ (n = 0 → _calc_bottom self v tops = [])
     ∧ (total_segments self = replicate n true →
        _calc_bottom self v tops = tops)
     ∧ (total_segments self = replicate n false →
        length (_calc_bottom self v tops) = n))
  ∧ (∀ self k l,
       well_formed self → layers self !! k = Some l →
       ∃ bottom, bottom_of (_plot self) k = Some bottom
                 ∧ length bottom = segment_count self)
  ∧ (∀ mask : option (list bool),
       mask = None ∨ mask = Some [] →
       ∃ b : Bridge num kwargs,
         __init__ [] mask = inr b
         ∧ segment_count b = 0
         ∧ ∀ atb kw,
             (add_layer [] atb kw b).2 = Returned
             ∧ layers (add_layer [] atb kw b).1 = [mkLayer [] kw]
             ∧ bottom_of (add_layer [] atb kw b).1 0 = Some []).
Proof.
  split; [|split].
  - intros self v tops n Hm Hv Ht.
    assert (length (_calc_bottom self v tops) = n) as Hlen.
    { rewrite length_calc_bottom_shaped; congruence. }
    split; [done|]. split; [|split; [|done]].
    + intros ->. by apply nil_length_inv.
    + intros Hall. rewrite calc_bottom_cums, Hall.
      apply cums_all_totals; [|done].
      rewrite length_bottom_step1; congruence.
  - intros self k l Hwf Hk. eexists. split; [by apply bottom_of_plot|].
    by apply length_bottom.
  - intros mask [-> | ->]; (eexists; split; [reflexivity|]; split; [done|]);
      intros [] kw; done.
Qed.

(** *** Recomputation *)

Lemma calc_bottom_ext self (self' : Bridge num kwargs) v tops :
  total_segments self = total_segments self' →
  _calc_bottom self v tops = _calc_bottom self' v tops.
Proof. intros Hm. unfold _calc_bottom. by rewrite Hm. Qed.

(* The bar calls depend on the chart through its mask and its size only. *)
Lemma calls_ext self (self' : Bridge num kwargs) tops ls :
  segment_count self = segment_count self' →
  total_segments self = total_segments self' →
  calls self tops ls = calls self' tops ls.
Proof.
  intros Hc Hm. revert tops. induction ls as [|l ls IH]; intros tops; [done|].
  simpl. by rewrite IH, Hc, (calc_bottom_ext self self' _ _ Hm).
Qed.

Lemma plot_set_ax self a : _plot (set_ax a self) = _plot self.
Proof.
  rewrite (plot_eq (set_ax a self)), (plot_eq self).
  unfold set_ax. simpl. do 2 f_equal. by apply calls_ext.
Qed.

Lemma plot_plot self : _plot (_plot self) = _plot self.
Proof.
  transitivity (_plot (set_ax (ax (_plot self)) self)); [|apply plot_set_ax].
  f_equal. by rewrite plot_eq.
Qed.

(** C8.  Recomputation is idempotent: running _plot on a chart that
    _plot has just drawn changes nothing, so every layer gets the same
    bottom vector again; _plot leaves the layers and the mask as they
    are; and what it draws does not depend on what was drawn before. *)
Theorem plot_idempotent self :
  _plot (_plot self) = _plot self
  ∧ (∀ k, bottom_of (_plot (_plot self)) k = bottom_of (_plot self) k)
  ∧ layers (_plot self) = layers self
  ∧ total_segments (_plot self) = total_segments self
  ∧ ∀ a, _plot (set_ax a self) = _plot self.
Proof.
  split; [apply plot_plot|]. split; [intros k; by rewrite plot_plot|].
  split; [by rewrite plot_eq|]. split; [by rewrite plot_eq|].
  intros a. apply plot_set_ax.
Qed.

(** *** Validation *)

Lemma init_mismatch_raises labels (mask : list bool) :
  mask ≠ [] → length mask ≠ length labels →
  __init__ (num:=num) (kwargs:=kwargs) labels (Some mask)
  = inl (ValueError
      "total_segments must be the same size as the series_labels.").
Proof.
  intros Hne Hlen. unfold __init__. destruct mask as [|t mask]; [done|].
  simpl. destruct (length labels =? S (length mask))%nat eqn:Heq; [|done].
  apply Nat.eqb_eq in Heq. simpl in Hlen. lia.
Qed.

Lemma init_omitted labels :
  ∃ b : Bridge num kwargs,
    __init__ labels None = inr b
    ∧ layers b = []
    ∧ total_segments b = replicate (length labels) false.
Proof. by eexists. Qed.

Lemma init_matching labels (mask : list bool) :
  length mask = length labels →
  ∃ b : Bridge num kwargs,
    __init__ labels (Some mask) = inr b
    ∧ layers b = [] ∧ total_segments b = mask.
Proof.
  intros Hlen. unfold __init__. destruct mask as [|t mask]; simpl.
  - eexists. split; [done|]. split; [done|].
    simpl in Hlen. by rewrite <- Hlen.
  - simpl in Hlen. rewrite <- Hlen, Nat.eqb_refl. simpl. by eexists.
Qed.

(** C3.  The constructor at Bridge(["A"], total_segments=[]): the mask
    is given and its length, 0, differs from the number of labels, 1,
    yet no exception is raised; the chart is built with the all-false
    mask, as if the mask had been left out. *)
Theorem init_empty_mask_accepted :
  __init__ (num:=num) (kwargs:=kwargs) ["A"%string] (Some [])
  = inr {| layers := []; segment_labels := ["A"%string];
           segment_count := 1; total_segments := [false];
           ax := {| xticks := [0]; xticklabels := ["A"%string];
                    bars := [] |} |}
  ∧ __init__ (num:=num) (kwargs:=kwargs) ["A"%string] (Some [])
    = __init__ ["A"%string] None.
Proof. split; reflexivity. Qed.

End Properties.

(** ** More about the calls *)

Section CallFacts.

Context {num : Type} `{Number num} {kwargs : Type}.
Implicit Types (self : Bridge num kwargs) (l : Layer num kwargs).
Implicit Types (v w tops : list num).

Lemma segment_tops_at_S self k l :
  layers self !! k = Some l →
  segment_tops_at self (S k) = update_tops (segment_tops_at self k) (values l).
Proof.
  intros Hk. rewrite !segment_tops_at_eq, (take_S_r _ _ _ Hk).
  unfold tops_after. by rewrite foldl_snoc.
Qed.

Lemma prefix_sum_S v i (x : num) :
  v !! i = Some x → prefix_sum v (S i) = add (prefix_sum v i) x.
Proof.
  intros Hx. unfold prefix_sum. by rewrite (take_S_r _ _ _ Hx), foldl_snoc.
Qed.

Lemma add_layer_returns self v (atb : bool) (kw : kwargs) :
  segment_count self = length v →
  add_layer v atb kw self
  = (_plot (set_layers (if atb then mkLayer v kw :: layers self
                        else layers self ++ [mkLayer v kw]) self), Returned).
Proof.
  intros Hlen. unfold add_layer. rewrite Hlen, Nat.eqb_refl. simpl.
  by destruct atb.
Qed.

Lemma init_fresh labels mask (b : Bridge num kwargs) :
  __init__ labels mask = inr b →
  layers b = [] ∧ bars (ax b) = [] ∧ segment_count b = length labels.
Proof.
  unfold __init__. destruct (truthy mask && _); [done|].
  intros Hinit. by simplify_eq.
Qed.

End CallFacts.

(** ** The sample charts on binary64 values *)

Module FloatFacts.
Import PrimFloat FloatChart.

(** C1.  The end-to-end example: on the chart with labels A, B, C and
    total mask [false, false, true], add_layer([5,5,5]) followed by
    add_layer([1,1,1], add_to_bottom=False) both return; the bottom
    layer is drawn with bottoms [0,5,0], segment_tops between the two
    layers is [5,5,5], and the top layer is drawn with bottoms
    [5,11,5]. *)
Theorem end_to_end_example :
  __init__ ["A"; "B"; "C"]%string (Some [false; false; true]) = inr abc
  ∧ (add_layer [5; 5; 5]%float true [] abc).2 = Returned
  ∧ bottom_of (add_layer [5; 5; 5]%float true [] abc).1 0
    = Some [0; 5; 0]%float
  ∧ (add_layer [1; 1; 1]%float false []
       (add_layer [5; 5; 5]%float true [] abc).1).2 = Returned
  ∧ values <$> layers (two_layers [5; 5; 5]%float [1; 1; 1]%float false abc)
    = [[5; 5; 5]; [1; 1; 1]]%float
  ∧ bottom_of (two_layers [5; 5; 5]%float [1; 1; 1]%float false abc) 0
    = Some [0; 5; 0]%float
  ∧ segment_tops_at (two_layers [5; 5; 5]%float [1; 1; 1]%float false abc) 1
    = [5; 5; 5]%float
  ∧ bottom_of (two_layers [5; 5; 5]%float [1; 1; 1]%float false abc) 1
    = Some [5; 11; 5]%float.
Proof. vm_compute. repeat split; reflexivity. Qed.

Lemma total_reset_witness :
  well_formed (two_layers [5; 5; 5]%float [1; 1; 1]%float false abc)
  ∧ bottom_of
      (_plot (two_layers [5; 5; 5]%float [1; 1; 1]%float false abc)) 1
      ≫= (.!! 2)
    = Some (column_sum 2
              (take 1 (layers
                 (two_layers [5; 5; 5]%float [1; 1; 1]%float false abc)))).
Proof.
  assert (well_formed (two_layers [5; 5; 5]%float [1; 1; 1]%float false abc))
    as Hwf by (vm_compute; repeat split; repeat constructor).
  split; [exact Hwf|].
  apply (total_reset _ 1 (mkLayer [1; 1; 1]%float []) 2 Hwf); reflexivity.
Defined.

(* values=[10,20,30] on a chart without totals: bottoms [0,10,30] *)
Example first_layer_10_20_30 :
  __init__ ["A"; "B"; "C"]%string None = inr plain
  ∧ shift_right [10; 20; 30]%float = [0; 10; 20]%float
  ∧ bottom_of (add_layer [10; 20; 30]%float true [] plain).1 0
    = Some [0; 10; 30]%float.
Proof. vm_compute. repeat split; reflexivity. Qed.

(* a gap in the first layer: kept in the layer, no height added *)
Example gap_in_first_layer :
  values <$> layers (two_layers [5; nan; 5]%float [1; 1; 1]%float false abc)
  = [[5; nan; 5]; [1; 1; 1]]%float
  ∧ segment_tops_at
      (two_layers [5; nan; 5]%float [1; 1; 1]%float false abc) 1
    = [5; 0; 5]%float
  ∧ shift_right [5; nan; 5]%float = [0; 5; 0]%float.
Proof. vm_compute. repeat split; reflexivity. Qed.


End FloatFacts.

(** ** Further properties of the constructor and of drawing *)

Section Drawing.

Context {num : Type} `{Number num} {kwargs : Type}.
Implicit Types (self : Bridge num kwargs) (l : Layer num kwargs).
Implicit Types (ls : list (Layer num kwargs)) (v tops : list num).


Lemma plot_built labels (m : list bool) :
  _plot (built (num:=num) (kwargs:=kwargs) labels m) = built labels m.
Proof. by rewrite plot_eq. Qed.

(* Every chart a program can hold is well formed and freshly drawn. *)
Lemma reachable_drawn self : reachable self → well_formed self ∧ _plot self = self.
Proof.
  induction 1 as [labels mask b Hinit|v atb kw b Hb [Hwf Hplot]].
  - split; [by eapply init_well_formed|].
    rewrite (init_built _ _ _ Hinit). apply plot_built.
  - split; [by apply add_layer_well_formed|].
    unfold add_layer. destruct (negb _); simpl; [done|]. apply plot_plot.
Qed.

Lemma calls_heights self tops ls :
  bar_height <$> calls self tops ls = values <$> ls
  ∧ bar_kwargs <$> calls self tops ls = bar_args <$> ls
  ∧ bar_x <$> calls self tops ls = replicate (length ls) (seq 0 (segment_count self)).
Proof.
  revert tops. induction ls as [|l ls IH]; intros tops; [done|].
  destruct (IH (update_tops tops (values l))) as (Hh & Hk & Hx).
  cbn [calls length replicate]. by rewrite !fmap_cons, Hh, Hk, Hx.
Qed.

(** X3.  _plot hands every layer to ax.bar as it is stored, in stacking
    order: the heights are the raw values of the layers (NaN included),
    the keyword arguments are the layers' bar_args, untouched, and every
    call has x = range(segment_count). *)
Theorem bars_follow_layers self :
  bar_height <$> bars (ax (_plot self)) = values <$> layers self
  ∧ bar_kwargs <$> bars (ax (_plot self)) = bar_args <$> layers self
  ∧ bar_x <$> bars (ax (_plot self))
    = replicate (length (layers self)) (seq 0 (segment_count self)).
Proof. rewrite plot_eq. simpl. apply calls_heights. Qed.

End Drawing.

(** ** How calls compose *)

Section Composition.

Context {num : Type} `{Number num} {kwargs : Type}.
Implicit Types (self : Bridge num kwargs) (l : Layer num kwargs).
Implicit Types (ls : list (Layer num kwargs)) (v w tops : list num).

Lemma layers_add_layer self v (atb : bool) (kw : kwargs) :
  segment_count self = length v →
  layers (add_layer v atb kw self).1
  = (if atb then mkLayer v kw :: layers self else layers self ++ [mkLayer v kw])
  ∧ segment_count (add_layer v atb kw self).1 = segment_count self.
Proof.
  intros Hlen. unfold add_layer. rewrite Hlen, Nat.eqb_refl. simpl.
  rewrite plot_eq. by destruct atb.
Qed.

Lemma add_layers_cons (c : Call num kwargs) cs self :
  add_layers (c :: cs) self
  = add_layers cs
      (add_layer (call_values c) (call_to_bottom c) (call_args c) self).1.
Proof. reflexivity. Qed.

(** X4.  Stacking order of a run of add_layer calls, all with values of
    the right length: the stored list holds the layers added to the
    bottom in reverse order of their calls, then the layers the chart
    had, then the layers added on top in the order of their calls. *)
Theorem stacking_order (cs : list (Call num kwargs)) self :
  Forall (λ c, length (call_values c) = segment_count self) cs →
  layers (add_layers cs self)
  = reverse (layer_of <$> filter (λ c, call_to_bottom c) cs)
    ++ layers self
    ++ (layer_of <$> filter (λ c, ¬ call_to_bottom c) cs).
Proof.
  revert self. induction cs as [|c cs IH]; intros self Hcs.
  - simpl. by rewrite app_nil_r.
  - inversion Hcs as [|?? Hc Hcs']; subst.
    destruct (layers_add_layer self (call_values c) (call_to_bottom c)
                (call_args c)) as [Hls Hcount]; [done|].
    rewrite add_layers_cons.
    rewrite IH by (by rewrite Hcount). rewrite Hls.
    destruct (call_to_bottom c) eqn:Hb.
    + rewrite (filter_cons_True (λ c, call_to_bottom c) c) by (by rewrite Hb).
      rewrite (filter_cons_False (λ c, ¬ call_to_bottom c) c)
        by (rewrite Hb; intros Hn; by apply Hn).
      rewrite fmap_cons, reverse_cons, <- app_assoc. reflexivity.
    + rewrite (filter_cons_False (λ c, call_to_bottom c) c)
        by (rewrite Hb; by intros []).
      rewrite (filter_cons_True (λ c, ¬ call_to_bottom c) c)
        by (rewrite Hb; by intros []).
      rewrite fmap_cons, <- app_assoc. reflexivity.
Qed.

Lemma calls_app self tops ls ls' :
  calls self tops (ls ++ ls')
  = calls self tops ls ++ calls self (tops_after tops ls) ls'.
Proof.
  revert tops. induction ls as [|l ls IH]; intros tops; [done|].
  simpl. by rewrite IH.
Qed.

(** X5.  A layer added on top moves nothing that is drawn: after
    add_layer(v, add_to_bottom=False) with v of the right length, the
    bar calls are those _plot draws for the chart as it was, followed by
    one call for the new layer, whose bottoms are computed from the
    tops of all the layers before it. *)
Theorem append_keeps_bars self v (kw : kwargs) :
  segment_count self = length v →
  bars (ax (add_layer v false kw self).1)
  = bars (ax (_plot self))
    ++ [mkBarCall (seq 0 (segment_count self)) v
          (_calc_bottom self v (segment_tops_at self (length (layers self))))
          kw].
Proof.
  intros Hlen. unfold add_layer. rewrite Hlen, Nat.eqb_refl. simpl.
  rewrite !plot_eq, segment_tops_at_eq, firstn_all. simpl.
  rewrite (calls_ext _ self) by done.
  rewrite calls_app. simpl. by rewrite Hlen.
Qed.

Lemma plot_set_layers_plot self ls :
  _plot (set_layers ls (_plot self)) = _plot (set_layers ls self).
Proof.
  rewrite (plot_eq (set_layers ls (_plot self))), (plot_eq (set_layers ls self)).
  rewrite (plot_eq self). unfold set_ax, set_layers. simpl.
  do 2 f_equal. by apply calls_ext.
Qed.

(** X6.  Adding one layer to the bottom and another on top gives the
    same chart in either order of the two calls (values of the right
    length). *)
Theorem bottom_and_top_commute self v w (kw1 kw2 : kwargs) :
  segment_count self = length v → segment_count self = length w →
  (add_layer w false kw2 (add_layer v true kw1 self).1).1
  = (add_layer v true kw1 (add_layer w false kw2 self).1).1.
Proof.
  intros Hv Hw.
  rewrite (add_layer_returns self v true kw1 Hv).
  rewrite (add_layer_returns self w false kw2 Hw). cbn [fst].
  rewrite !add_layer_returns by (by rewrite plot_eq). cbn [fst].
  rewrite !plot_set_layers_plot, !layers_plot. reflexivity.
Qed.

End Composition.

(** ** Further properties of the bottoms *)

Section Layout.

Context {num : Type} `{Number num} {kwargs : Type}.
Implicit Types (self : Bridge num kwargs) (l : Layer num kwargs).
Implicit Types (ls : list (Layer num kwargs)) (v tops : list num).

(** X7.  On inputs of any lengths _calc_bottom raises nothing and returns
    as many bottoms as the shortest of the mask, the tops and the values
    has entries (the zips cut the longer ones). *)
Theorem calc_bottom_truncates self v tops :
  length (_calc_bottom self v tops)
  = length (total_segments self) `min` (length tops `min` length v).
Proof.
  rewrite length_calc_bottom. unfold bottom_step1.
  rewrite length_zip_with, length_shift_right. lia.
Qed.

Lemma shift_right_take v :
  shift_right v = take (length v) (zero :: (nan_to_num <$> v)).
Proof.
  unfold shift_right, drop_last. simpl. by rewrite Nat.sub_0_r, length_fmap.
Qed.

Lemma shift_right_snoc v (x : num) :
  shift_right (v ++ [x]) = zero :: (nan_to_num <$> v).
Proof.
  rewrite shift_right_take, fmap_app, length_app. simpl.
  rewrite Nat.add_1_r. simpl. f_equal.
  rewrite <- (length_fmap nan_to_num v). apply take_app_length.
Qed.

(* The first i+1 entries of the shifted vector are read off the first i
   values. *)
Lemma take_shift_right v (v' : list num) i :
  length v = length v' → take i v = take i v' →
  take (S i) (shift_right v) = take (S i) (shift_right v').
Proof.
  intros Hlen Htake. rewrite !shift_right_take, !take_take, <- Hlen.
  destruct (length v) as [|n] eqn:Hn; [done|].
  replace (S i `min` S n) with (S (i `min` n)) by lia. simpl. f_equal.
  rewrite <- !fmap_take.
  assert (∀ u : list num, take (i `min` n) u = take (i `min` n) (take i u))
    as Hmin by (intros u; rewrite take_take; f_equal; lia).
  by rewrite (Hmin v), (Hmin v'), Htake.
Qed.

(** X8.  Bottoms look to the left only: entry i of the bottom vector of
    a layer is decided by the values at the positions before i (with the
    mask and the tops), so two value vectors of one length that agree
    before i give the same bottom there; in particular the last value of
    a layer has no effect on the bottoms of that layer. *)
Theorem bottoms_look_left self tops :
  (∀ v (v' : list num) i,
     length v = length v' → take i v = take i v' →
     _calc_bottom self v tops !! i = _calc_bottom self v' tops !! i)
  ∧ (∀ v (x y : num),
       _calc_bottom self (v ++ [x]) tops = _calc_bottom self (v ++ [y]) tops).
Proof.
  split.
  - intros v v' i Hlen Htake. rewrite !calc_bottom_cums.
    set (items := zip3 _ (bottom_step1 v tops) _).
    set (items' := zip3 _ (bottom_step1 v' tops) _).
    assert (length items = length items') as Hitems.
    { subst items items'. rewrite !length_zip3. unfold bottom_step1.
      rewrite !length_zip_with, !length_shift_right. lia. }
    destruct (decide (i < length items)) as [Hi|Hi].
    + rewrite !lookup_cums by lia. do 2 f_equal.
      subst items items'. unfold zip3, bottom_step1.
      rewrite !zip_with_take. by rewrite (take_shift_right v v' i).
    + rewrite !lookup_ge_None_2; [done|rewrite length_cums; lia..].
  - intros v x y. unfold _calc_bottom, bottom_step1.
    by rewrite !shift_right_snoc.
Qed.

(** X9.  The step between neighbours: in a well-formed chart, if
    category i+1 is no total, then the bottom of layer k at i+1 is its
    bottom at i plus the candidate at i+1, the top of the layers below
    at i+1 plus the cleaned value of the layer at i; that holds whether
    or not category i is a total. *)
Theorem bottom_step self k l i :
  well_formed self →
  layers self !! k = Some l →
  total_segments self !! S i = Some false →
  ∃ b t x : num,
    bottom_of (_plot self) k ≫= (.!! i) = Some b
    ∧ segment_tops_at self k !! S i = Some t
    ∧ values l !! i = Some x
    ∧ bottom_of (_plot self) k ≫= (.!! S i)
      = Some (add b (add t (nan_to_num x))).
Proof.
  intros Hwf Hk Ht.
  assert (S i < segment_count self) as Hi.
  { destruct Hwf as (_ & <- & _). by eapply lookup_lt_Some. }
  destruct (lookup_items_at self k l (S i) false Hwf Hk Ht)
    as (sh & Hsh & Hitem).
  rewrite lookup_shift_right_S in Hsh
    by (by rewrite (layer_shape self k l Hwf Hk)).
  destruct (values l !! i) as [x|] eqn:Hx; simplify_eq/=.
  eexists _, _, x.
  split; [apply (lookup_bottom self k l i Hwf Hk); lia|].
  split; [by apply lookup_segment_tops_at|]. split; [done|].
  rewrite (lookup_bottom self k l (S i) Hwf Hk Hi).
  by rewrite (cumulative_b_after_item _ _ _ _ _ _ _ Hitem).
Qed.

Lemma bottom_at_total self k l i :
  well_formed self → layers self !! k = Some l →
  total_segments self !! i = Some true →
  bottom_of (_plot self) k ≫= (.!! i)
  = Some (column_sum i (take k (layers self))).
Proof.
  intros Hwf Hk Ht.
  destruct (lookup_items_at self k l i true Hwf Hk Ht) as (sh & _ & Hitem).
  rewrite (lookup_bottom self k l i Hwf Hk).
  - by rewrite (cumulative_b_after_item _ _ _ _ _ _ _ Hitem).
  - destruct Hwf as (_ & <- & _). by eapply lookup_lt_Some.
Qed.

Lemma column_sum_S ls k l i (x : num) :
  ls !! k = Some l → values l !! i = Some x →
  column_sum i (take (S k) ls)
  = add (column_sum i (take k ls)) (nan_to_num x).
Proof.
  intros Hk Hx. unfold column_sum, clean_column.
  rewrite (take_S_r _ _ _ Hk), omap_app. simpl. rewrite Hx. simpl.
  by rewrite foldl_snoc.
Qed.

(** X10.  At a total the layers stack without gap or overlap: in a
    well-formed chart, if category i is a total, the bottom of layer k+1
    at i is the bottom of layer k at i plus the cleaned value of layer k
    at i. *)
Theorem totals_stack self k l l' i (x : num) :
  well_formed self →
  layers self !! k = Some l → layers self !! S k = Some l' →
  total_segments self !! i = Some true →
  values l !! i = Some x →
  ∃ b : num,
    bottom_of (_plot self) k ≫= (.!! i) = Some b
    ∧ bottom_of (_plot self) (S k) ≫= (.!! i) = Some (add b (nan_to_num x)).
Proof.
  intros Hwf Hk Hk' Ht Hx. eexists. split; [by eapply bottom_at_total|].
  rewrite (bottom_at_total self (S k) l' i Hwf Hk' Ht).
  by rewrite (column_sum_S _ _ _ _ _ Hk Hx).
Qed.

Lemma calls_cleaned self (self' : Bridge num kwargs) tops ls ls' :
  total_segments self = total_segments self' →
  cleaned <$> ls = cleaned <$> ls' →
  bar_bottom <$> calls self tops ls = bar_bottom <$> calls self' tops ls'.
Proof.
  intros Hm. revert tops ls'.
  induction ls as [|l ls IH]; intros tops [|l' ls'] Heq; try done.
  rewrite !fmap_cons in Heq. injection Heq as Hl Hrest.
  unfold cleaned in Hl. cbn [calls]. rewrite !fmap_cons. cbn [bar_bottom].
  assert (_calc_bottom self (values l) tops
          = _calc_bottom self' (values l') tops) as ->.
  { unfold _calc_bottom, bottom_step1, shift_right. by rewrite Hm, Hl. }
  f_equal. unfold update_tops. rewrite Hl. by apply IH.
Qed.

(** X11.  The bottoms read the values through np.nan_to_num only: two
    charts with the same mask whose layers have the same cleaned values
    are drawn with the same bottoms, layer by layer (a gap is laid out
    as whatever np.nan_to_num makes of it). *)
Theorem cleaned_values_decide_bottoms self (self' : Bridge num kwargs) :
  total_segments self = total_segments self' →
  segment_count self = segment_count self' →
  cleaned <$> layers self = cleaned <$> layers self' →
  bar_bottom <$> bars (ax (_plot self))
  = bar_bottom <$> bars (ax (_plot self')).
Proof.
  intros Hm Hc Hls. rewrite !plot_eq. simpl. rewrite Hc.
  by apply calls_cleaned.
Qed.

End Layout.

(** ** Arithmetic of binary64 *)

Module Binary64Facts.
Import PrimFloat SpecFloat FloatOps FloatAxioms Binary64.

Lemma signed_zero_of_spec (x : float) s :
  Prim2SF x = S754_zero s → signed_zero x.
Proof.
  intros Hx. rewrite <- (SF2Prim_Prim2SF x), Hx.
  destruct s; [right|left]; reflexivity.
Qed.

Lemma spec_of_signed_zero (z : float) :
  signed_zero z → Prim2SF z = S754_zero false ∨ Prim2SF z = S754_zero true.
Proof. intros [-> | ->]; [left|right]; reflexivity. Qed.

(* Adding a zero of either sign changes at most the sign of a zero. *)
Lemma add_zero_r (x z : float) : signed_zero z → same_number (x + z) x.
Proof.
  intros Hz. pose proof (add_spec x z) as Hadd. unfold SF64add in Hadd.
  destruct (spec_of_signed_zero z Hz) as [Hz' | Hz']; rewrite Hz' in Hadd;
    destruct (Prim2SF x) as [s| s | |s m e] eqn:Hx; simpl in Hadd;
    try (left; apply Prim2SF_inj; congruence);
    right; (split; [|by eapply signed_zero_of_spec]);
    destruct s; by eapply signed_zero_of_spec.
Qed.

Lemma add_zero_l (x z : float) : signed_zero z → same_number (z + x) x.
Proof.
  intros Hz. pose proof (add_spec z x) as Hadd. unfold SF64add in Hadd.
  destruct (spec_of_signed_zero z Hz) as [Hz' | Hz']; rewrite Hz' in Hadd;
    destruct (Prim2SF x) as [s| s | |s m e] eqn:Hx; simpl in Hadd;
    try (left; apply Prim2SF_inj; congruence);
    right; (split; [|by eapply signed_zero_of_spec]);
    destruct s; by eapply signed_zero_of_spec.
Qed.

#[global] Instance same_number_equivalence : Equivalence same_number.
Proof.
  split.
  - by left.
  - intros x y [-> | [Hx Hy]]; [by left|by right].
  - intros x y z [-> | [Hx Hy]] [<- | [Hy' Hz]]; try (by left); by right.
Qed.

(* Addition does not tell the two zeros apart, but for the sign of a
   zero sum. *)
Lemma add_same (x x' y y' : float) :
  same_number x x' → same_number y y' → same_number (x + y) (x' + y').
Proof.
  intros [-> | [Hx Hx']] [-> | [Hy Hy']].
  - reflexivity.
  - rewrite (add_zero_r x' y Hy). symmetry. by apply add_zero_r.
  - rewrite (add_zero_l y' x Hx). symmetry. by apply add_zero_l.
  - rewrite (add_zero_l y x Hx), (add_zero_l y' x' Hx'). by right.
Qed.

Lemma nan_to_num_nan (x : float) : is_nan x = true → f_nan_to_num x = 0%float.
Proof. intros Hx. unfold f_nan_to_num. by rewrite Hx. Qed.

Lemma nan_to_num_finite (x : float) : finite x = true → f_nan_to_num x = x.
Proof.
  unfold finite, f_nan_to_num. intros [Hn Hi]%andb_prop.
  apply negb_true_iff in Hn, Hi. by rewrite Hn, Hi.
Qed.

End Binary64Facts.

(** ** The layout on binary64 values *)

Module Binary64Layout.
Import PrimFloat Binary64 Binary64Facts.

Section Layout.

Context {kwargs : Type}.
Implicit Types (self : Bridge float kwargs) (l : Layer float kwargs).
Implicit Types (v tops : list float).

(* Entry 0 of a bottom vector, as the loop computes it. *)
Lemma bottom_0 self k l :
  well_formed self → (0 < segment_count self)%nat →
  layers self !! k = Some l →
  ∃ b, bottom_of (_plot self) k ≫= (.!! 0%nat) = Some b
       ∧ same_number b (column_sum 0 (take k (layers self)))
       ∧ (column_sum 0 (take k (layers self)) = 0%float → b = 0%float).
Proof.
  intros Hwf Hn Hk.
  destruct (lookup_lt_is_Some_2 (total_segments self) 0) as [t Ht].
  { destruct Hwf as (_ & -> & _). done. }
  destruct (lookup_items_at self k l 0 t Hwf Hk Ht) as (sh & Hsh & Hitem).
  rewrite lookup_shift_right_0 in Hsh
    by (by rewrite (layer_shape self k l Hwf Hk)).
  simplify_eq.
  rewrite (lookup_bottom self k l 0 Hwf Hk Hn).
  rewrite (cumulative_b_after_item _ _ _ _ _ _ _ Hitem).
  eexists. split; [done|]. destruct t.
  - split; [reflexivity|done].
  - split.
    + etransitivity; [apply (add_zero_l _ 0%float); by left|].
      apply (add_zero_r _ 0%float). by left.
    + by intros ->.
Qed.

(** C10.  Index 0 on binary64: in a well-formed chart with at least one
    category, entry 0 of the bottom vector of layer k is, as a number,
    the sum of the cleaned values at index 0 of the layers below it,
    added up from 0 in stacking order; it is 0.0 for the bottom-most
    layer; and it is the same number under any other mask, so a total at
    index 0 changes nothing there.  (The code computes 0 + (tops[0] + 0)
    when index 0 is no total, which can differ from tops[0] in the sign
    of a zero only.) *)
Theorem bottom_at_index_0 self k l :
  well_formed self → (0 < segment_count self)%nat →
  layers self !! k = Some l →
  (∃ b, bottom_of (_plot self) k ≫= (.!! 0%nat) = Some b
        ∧ same_number b (column_sum 0 (take k (layers self))))
  ∧ (k = 0%nat → bottom_of (_plot self) k ≫= (.!! 0%nat) = Some 0%float)
  ∧ ∀ mask : list bool,
      length mask = segment_count self →
      ∃ b b',
        bottom_of (_plot self) k ≫= (.!! 0%nat) = Some b
        ∧ bottom_of (_plot (with_total_segments mask self)) k ≫= (.!! 0%nat)
          = Some b'
        ∧ same_number b' b.
Proof.
  intros Hwf Hn Hk.
  destruct (bottom_0 self k l Hwf Hn Hk) as (b & Hb & Hsame & Hzero).
  split; [by exists b|]. split.
  - intros ->. rewrite Hb. f_equal. apply Hzero. by rewrite take_0.
  - intros mask Hmask.
    destruct (bottom_0 (with_total_segments mask self) k l)
      as (b' & Hb' & Hsame' & _); [|done|done|].
    { destruct Hwf as (Hc & Hm & Hls). by split. }
    exists b, b'. split; [done|]. split; [done|].
    etransitivity; [exact Hsame'|]. by symmetry.
Qed.

(** C6.  Gap tolerance on binary64: if layer k of a well-formed chart
    holds NaN at position i, then segment_tops at i after the layer is
    the value before plus 0.0, the same number; the shifted vector of
    the layer holds 0.0 at i+1, so the candidate there is segment_tops
    at i+1 plus 0.0, the same number again; and the layer is kept and
    handed to ax.bar with its raw values, NaN included; add_layer stores
    the values it is given as they are. *)
Theorem gap_tolerance self k l i (x : float) :
  well_formed self →
  layers self !! k = Some l →
  values l !! i = Some x → is_nan x = true →
  (∃ t, segment_tops_at self k !! i = Some t
        ∧ segment_tops_at self (S k) !! i = Some (t + 0)%float
        ∧ same_number (t + 0)%float t)
  ∧ ((S i < segment_count self)%nat →
     shift_right (values l) !! S i = Some 0%float
     ∧ ∃ t, segment_tops_at self k !! S i = Some t
            ∧ bottom_step1 (values l) (segment_tops_at self k) !! S i
              = Some (t + 0)%float
            ∧ same_number (t + 0)%float t)
  ∧ (layers (_plot self) !! k ≫= λ l', values l' !! i) = Some x
  ∧ (bars (ax (_plot self)) !! k ≫= λ c, bar_height c !! i) = Some x
  ∧ ∀ (atb : bool) (kw : kwargs) (b : Bridge float kwargs),
      segment_count b = length (values l) →
      mkLayer (values l) kw ∈ layers (add_layer (values l) atb kw b).1.
Proof.
  intros Hwf Hk Hx Hnan.
  pose proof (layer_shape self k l Hwf Hk) as Hshape.
  pose proof (length_segment_tops_at self k Hwf) as Htops.
  assert (∀ j, (j < segment_count self)%nat →
    ∃ t, segment_tops_at self k !! j = Some t) as Htop.
  { intros j Hj. apply lookup_lt_is_Some_2. by rewrite Htops. }
  split; [|split; [|split; [|split]]].
  - destruct (Htop i) as [t Ht].
    { rewrite <- Hshape. by eapply lookup_lt_Some. }
    exists t. split; [done|]. split; [|apply add_zero_r; by left].
    rewrite (segment_tops_at_S _ _ _ Hk), lookup_update_tops, Ht, Hx. simpl.
    by rewrite (nan_to_num_nan _ Hnan).
  - intros Hi.
    assert (shift_right (values l) !! S i = Some 0%float) as Hsh.
    { rewrite lookup_shift_right_S by lia. rewrite Hx. simpl.
      by rewrite (nan_to_num_nan _ Hnan). }
    split; [done|]. destruct (Htop (S i) Hi) as [t Ht].
    exists t. split; [done|]. split; [|apply add_zero_r; by left].
    unfold bottom_step1. by rewrite lookup_zip_with, Hsh, Ht.
  - by rewrite layers_plot, Hk.
  - by rewrite (lookup_bars_plot _ _ _ Hk).
  - intros atb kw b Hb. unfold add_layer.
    rewrite Hb, Nat.eqb_refl. simpl. rewrite layers_plot.
    destruct atb; simpl.
    + apply elem_of_cons. by left.
    + apply elem_of_app. right. by apply list_elem_of_singleton.
Qed.

(* With no total and nothing below, cumulative_b runs through the sums
   of the values to the left. *)
Lemma cumulative_b_first self v i :
  total_segments self = replicate (length v) false →
  Forall (λ x, finite x = true) v →
  (i < length v)%nat →
  same_number (cumulative_b_after self v (replicate (length v) 0%float) i)
    (prefix_sum v i)
  ∧ (i = 0%nat →
     cumulative_b_after self v (replicate (length v) 0%float) i = 0%float).
Proof.
  intros Hmask Hv. induction i as [|j IH]; intros Hi.
  - destruct (lookup_items self v (replicate (length v) 0%float) 0 false
                0%float) as (sh & Hsh & Hitem).
    + by rewrite Hmask, !length_replicate.
    + by rewrite length_replicate.
    + rewrite Hmask. by apply lookup_replicate_2.
    + by apply lookup_replicate_2.
    + rewrite lookup_shift_right_0 in Hsh by done. simplify_eq.
      rewrite (cumulative_b_after_item _ _ _ _ _ _ _ Hitem).
      split; [reflexivity|done].
  - destruct (lookup_items self v (replicate (length v) 0%float) (S j) false
                0%float) as (sh & Hsh & Hitem).
    + by rewrite Hmask, !length_replicate.
    + by rewrite length_replicate.
    + rewrite Hmask. by apply lookup_replicate_2.
    + by apply lookup_replicate_2.
    + rewrite lookup_shift_right_S in Hsh by done.
      destruct (v !! j) as [x|] eqn:Hx; simplify_eq/=.
      split; [|done].
      rewrite (cumulative_b_after_item _ _ _ _ _ _ _ Hitem).
      rewrite (prefix_sum_S _ _ _ Hx).
      rewrite (nan_to_num_finite x)
        by (by eapply (Forall_lookup_1 _ _ _ _ Hv)).
      apply add_same; [apply IH; lia|].
      apply (add_zero_l x 0%float). by left.
Qed.

(** C5 (as amended).  A chart just built has no layers and nothing
    drawn.  If its mask is all false, the first layer added, with values
    v of the right length that are neither NaN nor infinite, is drawn
    with bottom[0] = 0.0 and bottom[i] the same number as
    v[0] + ... + v[i-1], added up from 0 from left to right. *)
Theorem first_layer_prefix_sums labels mask (b : Bridge float kwargs) :
  __init__ labels mask = inr b →
  layers b = [] ∧ bars (ax b) = []
  ∧ (total_segments b = replicate (length labels) false →
     ∀ v (atb : bool) (kw : kwargs),
       length v = length labels →
       Forall (λ x, finite x = true) v →
       layers (add_layer v atb kw b).1 = [mkLayer v kw]
       ∧ ((0 < length v)%nat →
          bottom_of (add_layer v atb kw b).1 0 ≫= (.!! 0%nat) = Some 0%float)
       ∧ ∀ i, (i < length v)%nat →
           ∃ bi, bottom_of (add_layer v atb kw b).1 0 ≫= (.!! i) = Some bi
                 ∧ same_number bi (prefix_sum v i)).
Proof.
  intros Hinit. pose proof (init_well_formed _ _ _ Hinit) as Hwf.
  destruct (init_fresh _ _ _ Hinit) as (Hls & Hbars & Hcount).
  split; [done|]. split; [done|].
  intros Hmask v atb kw Hlen Hv.
  set (b1 := set_layers [mkLayer v kw] b).
  assert (add_layer v atb kw b = (_plot b1, Returned)) as ->.
  { rewrite add_layer_returns by congruence. rewrite Hls. by destruct atb. }
  assert (well_formed b1) as Hwf1.
  { destruct Hwf as (Hc & Hm & _). split; [done|]. split; [done|].
    constructor; [|done]. simpl. congruence. }
  assert (∀ i, (i < length v)%nat →
    bottom_of (_plot b1) 0 ≫= (.!! i)
    = Some (cumulative_b_after b1 v (replicate (length v) 0%float) i))
    as Hcum.
  { intros i Hi.
    rewrite (lookup_bottom b1 0 (mkLayer v kw) i Hwf1)
      by (done || (simpl; lia)).
    rewrite segment_tops_at_eq, take_0. simpl. by rewrite Hcount, <- Hlen. }
  assert (total_segments b1 = replicate (length v) false) as Hmask1
    by (simpl; by rewrite Hmask, Hlen).
  cbn [fst snd]. split; [by rewrite layers_plot|]. split.
  - intros Hpos. rewrite (Hcum 0%nat Hpos). f_equal.
    by apply (cumulative_b_first b1 v 0 Hmask1 Hv Hpos).
  - intros i Hi. rewrite (Hcum i Hi). eexists. split; [done|].
    by apply (cumulative_b_first b1 v i Hmask1 Hv Hi).
Qed.

End Layout.
End Binary64Layout.

(** ** A layer put underneath *)

Section Insertion.

Context {num : Type} `{Number num} {kwargs : Type}.
Implicit Types (self : Bridge num kwargs) (l : Layer num kwargs).
Implicit Types (v w tops : list num).


End Insertion.

(** ** The calls when ax.bar raises *)

Section RaisingFacts.

Context {num : Type} `{Number num} {kwargs bar_error : Type}.
Variable bar_raises : Axes num kwargs → BarCall num kwargs → option bar_error.
Implicit Types (self : Bridge num kwargs) (l : Layer num kwargs).
Implicit Types (ls : list (Layer num kwargs)) (v tops : list num).
Implicit Types (a : Axes num kwargs).

(* The loop draws the bars of the layers in turn, up to the first call
   that raises. *)
Lemma raising_plot_layers self a tops ls :
  ∃ m,
    (Raising.plot_layers bar_raises self a tops ls).1
    = {| xticks := xticks a; xticklabels := xticklabels a;
         bars := bars a ++ take m (calls self tops ls) |}
    ∧ (((Raising.plot_layers bar_raises self a tops ls).2 = None
        ∧ m = length ls)
       ∨ (is_Some (Raising.plot_layers bar_raises self a tops ls).2
          ∧ m < length ls)).
Proof.
  revert a tops. induction ls as [|l ls IH]; intros a tops.
  - exists 0. simpl. split; [|by left].
    destruct a. simpl. by rewrite app_nil_r.
  - cbn [Raising.plot_layers calls].
    destruct (bar_raises a _) as [e|] eqn:Hbar.
    + exists 0. simpl. split.
      * destruct a. simpl. by rewrite app_nil_r.
      * right. split; [by eexists|lia].
    + destruct (IH (ax_bar (seq 0 (segment_count self)) (values l)
                      (_calc_bottom self (values l) tops) (bar_args l) a)
                  (update_tops tops (values l))) as (m & Hax & Hm).
      exists (S m). split.
      * rewrite Hax. simpl. by rewrite <- app_assoc.
      * destruct Hm as [[Hnone ->]|[Hsome Hlt]]; [left|right];
          (split; [done|simpl; lia]).
Qed.

(* What _plot leaves on the axes. *)
Lemma raising_plot self :
  ∃ m,
    (Raising._plot bar_raises self).1
    = set_ax {| xticks := seq 0 (length (segment_labels self));
                xticklabels := segment_labels self;
                bars := take m (bars (ax (_plot self))) |} self
    ∧ (((Raising._plot bar_raises self).2 = None
        ∧ m = length (layers self))
       ∨ (is_Some (Raising._plot bar_raises self).2
          ∧ m < length (layers self))).
Proof.
  unfold Raising._plot. cbv zeta. rewrite plot_eq.
  set (a0 := set_xticklabels (segment_labels self)
               (set_xticks (seq 0 (length (segment_labels self)))
                  (ax_clear (ax self)))).
  destruct (raising_plot_layers self a0
              (replicate (segment_count self) zero) (layers self))
    as (m & Hax & Hm).
  destruct (Raising.plot_layers bar_raises self a0 _ (layers self))
    as [a raised].
  simpl in *. exists m. by rewrite Hax.
Qed.

Lemma raising_plot_layers_ext self (self' : Bridge num kwargs) a tops ls :
  segment_count self = segment_count self' →
  total_segments self = total_segments self' →
  Raising.plot_layers bar_raises self a tops ls
  = Raising.plot_layers bar_raises self' a tops ls.
Proof.
  intros Hc Hm. revert a tops. induction ls as [|l ls IH]; intros a tops;
    [done|].
  cbn [Raising.plot_layers].
  rewrite Hc, (calc_bottom_ext self self' _ _ Hm).
  destruct (bar_raises a _); [done|]. apply IH.
Qed.

(* Drawing again what _plot has left changes nothing, and raises what
   it raised. *)
Lemma raising_plot_again self :
  Raising._plot bar_raises (Raising._plot bar_raises self).1
  = Raising._plot bar_raises self.
Proof.
  unfold Raising._plot, ax_clear.
  destruct (Raising.plot_layers bar_raises self _ _ (layers self))
    as [a raised] eqn:Hplot.
  cbn [fst]. cbn [set_ax ax segment_labels segment_count layers].
  rewrite (raising_plot_layers_ext _ self) by done.
  by rewrite Hplot.
Qed.

Lemma raising_plot_layers_accepts self a tops ls :
  (∀ a c, bar_raises a c = None) →
  Raising.plot_layers bar_raises self a tops ls
  = ((plot_layers self a tops ls).1, None).
Proof.
  intros Hacc. revert a tops. induction ls as [|l ls IH]; intros a tops;
    [done|].
  cbn [Raising.plot_layers plot_layers]. by rewrite Hacc, IH.
Qed.

Lemma raising_plot_accepts self :
  (∀ a c, bar_raises a c = None) →
  Raising._plot bar_raises self = (_plot self, None).
Proof.
  intros Hacc. unfold Raising._plot, _plot.
  rewrite raising_plot_layers_accepts by done.
  by destruct (plot_layers _ _ _ _).
Qed.

(* add_layer when the lengths agree: the layer goes into the list, then
   _plot runs. *)
Lemma raising_add_layer_inserts self v (atb : bool) (kw : kwargs) :
  segment_count self = length v →
  Raising.add_layer bar_raises v atb kw self
  = let s := set_layers (if atb then mkLayer v kw :: layers self
                         else layers self ++ [mkLayer v kw]) self in
    ((Raising._plot bar_raises s).1,
     match (Raising._plot bar_raises s).2 with
     | None => Raising.Returns
     | Some e => Raising.RaisesInBar e
     end).
Proof.
  intros Hlen. unfold Raising.add_layer. rewrite Hlen, Nat.eqb_refl. simpl.
  destruct atb; by destruct (Raising._plot _ _).
Qed.

(** C4 (as amended).  add_layer raises its ValueError exactly when the
    length of the values differs from segment_count, before it changes
    anything, so that the chart is then as it was.  When the lengths
    agree the layer is put into the list, first (add_to_bottom) or last,
    with the labels, the size and the mask as before, and the chart is
    drawn anew; the call returns if every ax.bar draws its layer, and
    otherwise ends with the exception of the first ax.bar that raises,
    the new layer being in the list all the same. *)
Theorem add_layer_validation self v (atb : bool) (kw : kwargs) :
  ((∃ msg, (Raising.add_layer bar_raises v atb kw self).2
           = Raising.RaisesValueError msg)
     ↔ segment_count self ≠ length v)
  ∧ (segment_count self ≠ length v →
     Raising.add_layer bar_raises v atb kw self
     = (self, Raising.RaisesValueError
         "values must be the same size as the series_labels used to initialize the bridge."))
  ∧ (segment_count self = length v →
     layers (Raising.add_layer bar_raises v atb kw self).1
       = (if atb then mkLayer v kw :: layers self
          else layers self ++ [mkLayer v kw])
     ∧ segment_labels (Raising.add_layer bar_raises v atb kw self).1
       = segment_labels self
     ∧ segment_count (Raising.add_layer bar_raises v atb kw self).1
       = segment_count self
     ∧ total_segments (Raising.add_layer bar_raises v atb kw self).1
       = total_segments self
     ∧ (Raising.add_layer bar_raises v atb kw self).1 ≠ self
     ∧ ((Raising.add_layer bar_raises v atb kw self).2 = Raising.Returns
        ∨ ∃ e, (Raising.add_layer bar_raises v atb kw self).2
               = Raising.RaisesInBar e)
     ∧ ((Raising.add_layer bar_raises v atb kw self).2 = Raising.Returns
        ↔ length (bars (ax (Raising.add_layer bar_raises v atb kw self).1))
          = length (layers (Raising.add_layer bar_raises v atb kw self).1))
     ∧ ((∀ a c, bar_raises a c = None) →
        Raising.add_layer bar_raises v atb kw self
        = ((add_layer v atb kw self).1, Raising.Returns))).
Proof.
  destruct (decide (segment_count self = length v)) as [Hlen|Hlen].
  - split; [|split; [done|]].
    { rewrite (raising_add_layer_inserts self v atb kw Hlen). cbn [snd].
      split; [|done]. intros [msg Hmsg].
      by destruct (Raising._plot _ _).2. }
    intros _. rewrite (raising_add_layer_inserts self v atb kw Hlen).
    set (s := set_layers _ self). cbn zeta. cbn [fst snd].
    destruct (raising_plot s) as (m & Hs & Hm). rewrite Hs.
    cbn [set_ax layers segment_labels segment_count total_segments ax bars].
    assert (length (take m (bars (ax (_plot s)))) = m `min` length (layers s))
      as Hbars by (by rewrite length_take, length_bars_plot).
    split; [done|]. split; [done|]. split; [done|]. split; [done|].
    split.
    { intros Heq. apply (f_equal (λ c, length (layers c))) in Heq.
      subst s. simpl in Heq. destruct atb; simpl in Heq;
        rewrite ?length_app in Heq; simpl in Heq; lia. }
    split.
    { destruct Hm as [[-> _]|[[e ->] _]]; [by left|right; by eexists]. }
    split.
    { rewrite Hbars. destruct Hm as [[-> ->]|[[e ->] Hlt]].
      - split; [intros _; lia|done].
      - split; [done|lia]. }
    intros Hacc. rewrite <- Hs. rewrite (raising_plot_accepts s Hacc).
    cbn [fst snd]. by rewrite (add_layer_returns self v atb kw Hlen).
  - split; [|split; [|done]].
    + split; [done|]. intros _. unfold Raising.add_layer.
      apply Nat.eqb_neq in Hlen. rewrite Hlen. simpl. by eexists.
    + intros _. unfold Raising.add_layer.
      apply Nat.eqb_neq in Hlen. by rewrite Hlen.
Qed.

(* Every chart a program can hold is well formed and as drawn as _plot
   leaves it. *)
Lemma raising_reachable_drawn self :
  Raising.reachable bar_raises self →
  well_formed self ∧ (Raising._plot bar_raises self).1 = self.
Proof.
  induction 1 as [labels mask b Hinit|v atb kw b Hb [Hwf Hplot]].
  - split; [by eapply init_well_formed|].
    by rewrite (init_built _ _ _ Hinit).
  - destruct (decide (segment_count b = length v)) as [Hlen|Hlen].
    + rewrite (raising_add_layer_inserts b v atb kw Hlen).
      cbn zeta. cbn [fst]. split; [|by rewrite raising_plot_again].
      destruct (raising_plot (set_layers
                  (if atb then mkLayer v kw :: layers b
                   else layers b ++ [mkLayer v kw]) b)) as (m & -> & _).
      destruct Hwf as (Hc & Hm & Hls). split; [done|]. split; [done|].
      simpl. destruct atb.
      * by constructor.
      * apply Forall_app. split; [done|]. by constructor.
    + unfold Raising.add_layer. apply Nat.eqb_neq in Hlen.
      rewrite Hlen. simpl. by split.
Qed.

(** X2.  Every chart a program can hold (built by the constructor, then
    changed by add_layer only, whether the calls return, raise their
    ValueError or end in an ax.bar that raises) is well formed and as
    drawn as _plot leaves it: running _plot again changes nothing, the
    ticks are range(N) with the labels, and the axes hold the bars of
    the first m layers, as _plot draws them when no ax.bar raises, where
    m is the number of layers exactly when _plot raises nothing.  When
    ax.bar never raises, the chart is what the plain _plot draws. *)
Theorem reachable_invariant self :
  Raising.reachable bar_raises self →
  well_formed self
  ∧ (Raising._plot bar_raises self).1 = self
  ∧ xticks (ax self) = seq 0 (segment_count self)
  ∧ xticklabels (ax self) = segment_labels self
  ∧ (∃ m, m ≤ length (layers self)
          ∧ bars (ax self) = take m (bars (ax (_plot self)))
          ∧ (m = length (layers self)
             ↔ (Raising._plot bar_raises self).2 = None))
  ∧ ((∀ a c, bar_raises a c = None) → _plot self = self).
Proof.
  intros Hreach.
  destruct (raising_reachable_drawn self Hreach) as [Hwf Hplot].
  destruct (raising_plot self) as (m & Hs & Hm). rewrite Hplot in Hs.
  split; [done|]. split; [done|].
  split. { rewrite Hs at 1. simpl. by destruct Hwf as (-> & _). }
  split. { by rewrite Hs at 1. }
  split.
  - exists m. split; [destruct Hm as [[_ ->]|[_ Hlt]]; lia|].
    split; [by rewrite Hs at 1|].
    destruct Hm as [[Hnone ->]|[[e He] Hlt]]; [done|].
    rewrite He. split; [lia|done].
  - intros Hacc. rewrite <- Hplot at 2.
    by rewrite (raising_plot_accepts self Hacc).
Qed.

End RaisingFacts.

(** ** The runs of calls on binary64 values *)

Module FloatRunFacts.
Import PrimFloat FloatChart FloatRuns.

Lemma stacked_well_formed : well_formed stacked.
Proof. vm_compute. repeat split; repeat constructor. Defined.

Lemma stacking_order_witness :
  layers (add_layers three_calls abc)
  = reverse (layer_of <$> filter (λ c, call_to_bottom c) three_calls)
    ++ layers abc
    ++ (layer_of <$> filter (λ c, ¬ call_to_bottom c) three_calls).
Proof. apply (stacking_order three_calls abc). repeat constructor. Defined.

(* the three layers of that run, bottom first *)
Example three_calls_layers :
  values <$> layers (add_layers three_calls abc)
  = [[3; 3; 3]; [1; 1; 1]; [2; 2; 2]]%float.
Proof. vm_compute. reflexivity. Qed.

Lemma append_keeps_bars_witness :
  bars (ax (add_layer [1; 1; 1]%float false []
              (add_layer [5; 5; 5]%float true [] abc).1).1)
  = bars (ax (_plot (add_layer [5; 5; 5]%float true [] abc).1))
    ++ [mkBarCall (seq 0 3) [1; 1; 1]%float
          (_calc_bottom (add_layer [5; 5; 5]%float true [] abc).1
             [1; 1; 1]%float
             (segment_tops_at (add_layer [5; 5; 5]%float true [] abc).1 1))
          []].
Proof.
  apply (append_keeps_bars (add_layer [5; 5; 5]%float true [] abc).1
           [1; 1; 1]%float []).
  reflexivity.
Defined.

Lemma bottom_and_top_commute_witness :
  (add_layer [1; 1; 1]%float false []
     (add_layer [5; 5; 5]%float true [] abc).1).1
  = (add_layer [5; 5; 5]%float true []
       (add_layer [1; 1; 1]%float false [] abc).1).1.
Proof.
  apply (bottom_and_top_commute abc [5; 5; 5]%float [1; 1; 1]%float [] []);
    reflexivity.
Defined.

Lemma bottom_step_witness :
  ∃ b t x : float,
    bottom_of (_plot stacked) 1 ≫= (.!! 0) = Some b
    ∧ segment_tops_at stacked 1 !! 1 = Some t
    ∧ values (mkLayer [1; 1; 1]%float ([] : style)) !! 0 = Some x
    ∧ bottom_of (_plot stacked) 1 ≫= (.!! 1)
      = Some (add b (add t (nan_to_num x))).
Proof.
  exact (bottom_step stacked 1 (mkLayer [1; 1; 1]%float []) 0
           stacked_well_formed eq_refl eq_refl).
Defined.

Lemma totals_stack_witness :
  ∃ b : float,
    bottom_of (_plot stacked) 0 ≫= (.!! 2) = Some b
    ∧ bottom_of (_plot stacked) 1 ≫= (.!! 2)
      = Some (add b (nan_to_num 5%float)).
Proof.
  exact (totals_stack stacked 0 (mkLayer [5; 5; 5]%float [])
           (mkLayer [1; 1; 1]%float []) 2 5%float stacked_well_formed
           eq_refl eq_refl eq_refl eq_refl).
Defined.

Lemma cleaned_values_decide_bottoms_witness :
  bar_bottom <$> bars (ax (_plot with_gaps))
  = bar_bottom <$> bars (ax (_plot with_zeros)).
Proof.
  apply (cleaned_values_decide_bottoms with_gaps with_zeros); reflexivity.
Defined.

(* the bottoms of both charts *)
Example with_gaps_bottoms :
  bar_bottom <$> bars (ax with_gaps) = [[0; 5; 0]; [5; 6; 5]]%float
  ∧ values <$> layers with_gaps = [[5; nan; 5]; [1; nan; 1]]%float.
Proof. vm_compute. split; reflexivity. Qed.

Lemma with_gaps_well_formed : well_formed with_gaps.
Proof. vm_compute. repeat split; repeat constructor. Defined.

Lemma bottom_at_index_0_witness :
  ∃ b, bottom_of (_plot stacked) 1 ≫= (.!! 0) = Some b
       ∧ Binary64.same_number b (column_sum 0 (take 1 (layers stacked))).
Proof.
  destruct (Binary64Layout.bottom_at_index_0 stacked 1
              (mkLayer [1; 1; 1]%float []) stacked_well_formed)
    as (Hb & _ & _).
  - vm_compute. lia.
  - reflexivity.
  - exact Hb.
Defined.

(* the bottoms at index 0 of the two layers of that chart *)
Example stacked_index_0 :
  bottom_of (_plot stacked) 0 ≫= (.!! 0) = Some 0%float
  ∧ bottom_of (_plot stacked) 1 ≫= (.!! 0) = Some 5%float
  ∧ column_sum 0 (take 1 (layers stacked)) = 5%float.
Proof. vm_compute. repeat split; reflexivity. Qed.

Lemma gap_tolerance_witness :
  ∃ t, segment_tops_at with_gaps 0 !! 1 = Some t
       ∧ segment_tops_at with_gaps 1 !! 1 = Some (t + 0)%float
       ∧ Binary64.same_number (t + 0)%float t.
Proof.
  destruct (Binary64Layout.gap_tolerance with_gaps 0
              (mkLayer [5; nan; 5]%float []) 1 nan with_gaps_well_formed)
    as (Htops & _); [reflexivity..|].
  exact Htops.
Defined.

Lemma first_layer_prefix_sums_witness :
  ∃ bi, bottom_of (add_layer [10; 20; 30]%float true [] plain).1 0 ≫= (.!! 2)
        = Some bi
        ∧ Binary64.same_number bi (prefix_sum [10; 20; 30]%float 2).
Proof.
  destruct (Binary64Layout.first_layer_prefix_sums ["A"; "B"; "C"]%string
              None plain eq_refl) as (_ & _ & Hfirst).
  destruct (Hfirst eq_refl [10; 20; 30]%float true [] eq_refl)
    as (_ & _ & Hsum).
  - repeat constructor.
  - apply (Hsum 2). vm_compute. lia.
Defined.

(* C5 as first stated fails: infinity is no NaN, yet np.nan_to_num
   turns it into the largest finite float, so the bottom next to it is
   not v[0]. *)
Lemma first_layer_infinity :
  __init__ ["A"; "B"]%string None = inr ab
  ∧ forallb (λ x, negb (is_nan x)) [infinity; 1]%float = true
  ∧ bottom_of (add_layer [infinity; 1]%float true [] ab).1 0
    = Some [0; 0x1.fffffffffffffp+1023]%float
  ∧ prefix_sum [infinity; 1]%float 1 = infinity
  ∧ (0x1.fffffffffffffp+1023 =? infinity)%float = false.
Proof. vm_compute. repeat split; reflexivity. Qed.


(* the bottoms of the layer [5,5,5] before and after [1,2,3] is put
   underneath *)
Example insertion_under_5_5_5 :
  bottom_of (add_layer [5; 5; 5]%float true [] abc).1 0
  = Some [0; 5; 0]%float
  ∧ bottom_of (two_layers [5; 5; 5]%float [1; 2; 3]%float true abc) 1
    = Some [1; 8; 3]%float.
Proof. vm_compute. split; reflexivity. Qed.

(* On binary64 the shift need not be the running sum of the new layer:
   with [0.1, 0] drawn first and [0.2, 0.3] put underneath, the bottom
   at B is 0.6000000000000001, the old bottom plus the running sum is
   0.6. *)
Example insertion_shift_rounds :
  bottom_of (add_layer [tenth; 0]%float true [] ab).1 0
  = Some [0%float; tenth]
  ∧ contribution (total_segments ab) [two_tenths; three_tenths]
    = [two_tenths; 0.5%float]
  ∧ bottom_of (two_layers [tenth; 0]%float [two_tenths; three_tenths] true ab) 1
    = Some [two_tenths; 0x1.3333333333334p-1%float]
  ∧ zip_with PrimFloat.add [0%float; tenth] [two_tenths; 0.5%float]
    = [two_tenths; 0x1.3333333333333p-1%float].
Proof. vm_compute. repeat split; reflexivity. Qed.

(* C4 as first stated fails: the lengths agree, yet the call ends in a
   TypeError raised by ax.bar, with the layer in the list and no bar
   drawn. *)
Lemma add_layer_raises_after_insert :
  segment_count single = length [1%float]
  ∧ (Raising.add_layer python_bar [1]%float true [("bottom", "0")%string]
       single).2
    = Raising.RaisesInBar
        (TypeError "bar() got multiple values for keyword argument 'bottom'")
  ∧ layers (Raising.add_layer python_bar [1]%float true
              [("bottom", "0")%string] single).1
    = [mkLayer [1]%float [("bottom", "0")%string]]
  ∧ bars (ax (Raising.add_layer python_bar [1]%float true
                [("bottom", "0")%string] single).1) = []
  ∧ layers single = [].
Proof. vm_compute. repeat split; reflexivity. Qed.

Lemma rejected_reachable : Raising.reachable python_bar rejected.
Proof.
  unfold rejected. apply Raising.reach_add_layer.
  by apply (Raising.reach_init python_bar ["A"]%string None).
Defined.

Lemma reachable_invariant_witness :
  well_formed rejected
  ∧ (Raising._plot python_bar rejected).1 = rejected
  ∧ ∃ m, m ≤ length (layers rejected)
         ∧ bars (ax rejected) = take m (bars (ax (_plot rejected)))
         ∧ (m = length (layers rejected)
            ↔ (Raising._plot python_bar rejected).2 = None).
Proof.
  destruct (reachable_invariant python_bar rejected rejected_reachable)
    as (Hwf & Hplot & _ & _ & Hbars & _).
  split; [exact Hwf|]. split; [exact Hplot|exact Hbars].
Defined.

(* that chart holds a layer and no bar *)
Example rejected_chart :
  length (layers rejected) = 1 ∧ bars (ax rejected) = []
  ∧ length (bars (ax (_plot rejected))) = 1.
Proof. vm_compute. repeat split; reflexivity. Qed.

End FloatRunFacts.

